(** * skydive: the ElasticSearch graph backend and the application port map

    A shallow embedding of
    - [flow/application.go] (the [ApplicationPortMap] lookups), and
    - the ElasticSearch topology backend of package [graph]
      ([ElasticSearchBackend]: create / update / delete workflows, index
      rollover, time-scoped queries),
    followed by the statements the specification makes about them.

    Go maps are [gmap]s, the backend's receiver and the process
    environment it touches (store client, wall clock, logger) are threaded
    explicitly as a state, and the store client is an interface: a type
    class whose methods take and return the client's state. *)

From stdpp Require Import gmap strings list fin_maps pretty.

(** ** Package flow: [application.go] *)

Module flow.

(** [type ApplicationPortMap struct { UDP, TCP map[int]string }].  A nil
    Go map answers every lookup with "absent", like the empty [gmap]. *)
Record ApplicationPortMap := {
  UDP : gmap Z string;
  TCP : gmap Z string
}.

(** A method receiver of type [*ApplicationPortMap]: [None] is the nil
    pointer. *)
Definition receiver := option ApplicationPortMap.

Definition application (a : receiver) (srcPort dstPort : Z)
    (protoMap : gmap Z string) : string * bool :=
  match protoMap !! srcPort with
  | Some app => (app, true)
  | None =>
      match protoMap !! dstPort with
      | Some app => (app, true)
      | None => (""%string, false)
      end
  end.

Definition TCPApplication (a : receiver) (srcPort dstPort : Z) : string * bool :=
  match a with
  | None => (""%string, false)
  | Some m => application a srcPort dstPort (TCP m)
  end.

Definition UDPApplication (a : receiver) (srcPort dstPort : Z) : string * bool :=
  match a with
  | None => (""%string, false)
  | Some m => application a srcPort dstPort (UDP m)
  end.

(** [init] and [NewApplicationPortMapFromConfig].  The configuration,
    [strconv.Atoi] and [strings.ToUpper] are taken as given.  A
    [range] over a Go map yields its entries in an order the language
    leaves open: [GetStringMapString] gives the entries of the configured
    map in the order the loop meets them. *)
Section Init.
Variable GetStringMapString : string -> list (string * string).
Variable Atoi : string -> string + Z.
Variable ToUpper : string -> string.

(** One [Errorf]: the format and its arguments. *)
Definition LogLine : Type := string * list string.

(** The body of the inner loop, for one entry of the map. *)
Definition initEntry (protoName : string) (entry : string * string)
    (st : ApplicationPortMap * list LogLine) : ApplicationPortMap * list LogLine :=
  let (a, log) := st in
  let (port, name) := entry in
  match Atoi port with
  | inl err =>
      (a, log ++ [("Unable to parse %s application port %s: %s"%string,
                   [protoName; port; err])])
  | inr i =>
      let name := ToUpper name in
      if String.eqb protoName "udp" then
        ({| UDP := <[i := name]> (UDP a); TCP := TCP a |}, log)
      else if String.eqb protoName "tcp" then
        ({| UDP := UDP a; TCP := <[i := name]> (TCP a) |}, log)
      else (a, log)
  end.

Definition initProto (protoName : string) (st : ApplicationPortMap * list LogLine)
    : ApplicationPortMap * list LogLine :=
  let m := GetStringMapString ("flow.application_ports." +:+ protoName) in
  foldl (fun st entry => initEntry protoName entry st) st m.

Definition init (a : ApplicationPortMap) (log : list LogLine)
    : ApplicationPortMap * list LogLine :=
  foldl (fun st protoName => initProto protoName st) (a, log) ["udp"; "tcp"]%string.

Definition NewApplicationPortMapFromConfig (log : list LogLine)
    : ApplicationPortMap * list LogLine :=
  let apm := {| TCP := ∅; UDP := ∅ |} in
  init apm log.

(** The entries of a configured map whose port parses, as the table
    entries they become, in the order the loop meets them. *)
Definition parsed (m : list (string * string)) : list (Z * string) :=
  omap (fun entry : string * string =>
          match Atoi (fst entry) with
          | inl _ => None
          | inr i => Some (i, ToUpper (snd entry))
          end) m.

End Init.

End flow.

(** ** Package graph: the ElasticSearch backend *)

(** A Go [error] is represented by its message; the nil error is [None]. *)
Definition error := string.

(** [type Identifier string] *)
Definition Identifier := string.

(** [strconv.FormatInt(i, 10)] *)
Definition FormatInt (i : Z) : string := pretty i.

(** What the backend imports from outside the two source files: the
    standard library ([time], [encoding/json]), [common], [filters] and
    [olivere/elastic].  Their types stay abstract and their functions are
    taken as given. *)
Class Platform := {
  (** [time.Time], its zero value, [IsZero], and [common.UnixMillis] *)
  Time : Type;
  zeroTime : Time;
  IsZero : Time -> bool;
  UnixMillis : Time -> Z;
  (** the value of the [k]-th reading of [time.Now()] *)
  wallClock : nat -> Time;
  (** [graph.Metadata], the nil map, and [Metadata.Clone] *)
  Metadata : Type;
  nilMetadata : Metadata;
  Clone : Metadata -> Metadata;
  (** [common.TimeSlice], [filters.Filter], [elastic.Query] *)
  TimeSlice : Type;
  Filter : Type;
  ElasticQuery : Type;
  NewTermStringFilter : string -> string -> Filter;
  (** [json.RawMessage], the decoded [map[string]interface{}], and
      [common.JSONDecode] *)
  RawMessage : Type;
  JSONObject : Type;
  JSONDecode : RawMessage -> error + JSONObject
}.

Inductive Level := LevelError | LevelDebug.

Section Types.
Context `{Platform}.

(** The dynamic values this file stores in a [map[string]interface{}]. *)
Inductive Value :=
| VString (s : string)
| VInt64 (i : Z)
| VMetadata (m : Metadata)
| VIdentifier (i : Identifier).

Record graphElement := {
  ID : Identifier;
  metadata : Metadata;
  host : string;
  createdAt : Time;
  updatedAt : Time;
  deletedAt : Time;
  revision : Z
}.

(** [type Node struct { graphElement }] *)
Record Node := { nodeElement : graphElement }.

(** [type Edge struct { graphElement; parent, child Identifier }] *)
Record Edge := {
  edgeElement : graphElement;
  parent : Identifier;
  child : Identifier
}.

(** The argument of type [interface{}] of [updateTimes] and
    [MetadataUpdated]: a [*Node], an [*Edge], or a value of any other
    dynamic type, which the type switches skip. *)
Inductive element :=
| INode (n : Node)
| IEdge (e : Edge)
| IOther.

Definition zeroElement : graphElement :=
  {| ID := ""; metadata := nilMetadata; host := "";
     createdAt := zeroTime; updatedAt := zeroTime; deletedAt := zeroTime;
     revision := 0 |}.

(** [var node Node] and [var edge Edge] *)
Definition zeroNode : Node := {| nodeElement := zeroElement |}.
Definition zeroEdge : Edge :=
  {| edgeElement := zeroElement; parent := ""; child := "" |}.

Definition setUpdatedAt (t : Time) (e : graphElement) : graphElement :=
  {| ID := ID e; metadata := metadata e; host := host e;
     createdAt := createdAt e; updatedAt := t; deletedAt := deletedAt e;
     revision := revision e |}.

(** [filters.SearchQuery], the fields this file sets. *)
Record SearchQuery := {
  sqFilter : option Filter;
  Sort : bool;
  SortBy : string
}.

Definition zeroSearchQuery : SearchQuery :=
  {| sqFilter := None; Sort := false; SortBy := "" |}.

Record TimedSearchQuery := {
  tsqSearchQuery : SearchQuery;
  TimeFilter : option Filter;
  MetadataFilter : option Filter
}.

(** [GraphContext{TimeSlice *common.TimeSlice, TimePoint bool}] *)
Record GraphContext := {
  ctxTimeSlice : option TimeSlice;
  TimePoint : bool
}.

(** A [GraphElementMatcher] is used here only through [Filter()], so it
    is represented by what that call returns. *)
Record GraphElementMatcher := {
  matcherFilter : option Filter * option error
}.

(** [elastic.BoolQuery], reduced to its [must] clauses. *)
Record BoolQuery := { mustClauses : list ElasticQuery }.

Definition NewBoolQuery : BoolQuery := {| mustClauses := [] |}.

Definition Must (q : BoolQuery) (queries : list ElasticQuery) : BoolQuery :=
  {| mustClauses := mustClauses q ++ queries |}.

(** [elastic.SearchResult]: [out.Hits.Hits] and each hit's [Source]. *)
Record SearchHit := { Source : RawMessage }.
Record SearchResult := { Hits : list SearchHit }.

Inductive LogArg :=
| LStr (s : string)
| LRaw (r : RawMessage).

(** One call of [logging.GetLogger().Errorf] or [.Debugf]. *)
Record LogRecord := {
  logLevel : Level;
  logFormat : string;
  logArgs : list LogArg
}.

(** The functions of package [graph] that live in other files. *)
Class GraphPackage := {
  (** the [Decode] methods of [Node] and [Edge]: the receiver as the
      call leaves it, and the error *)
  NodeDecode : Node -> JSONObject -> Node * option error;
  EdgeDecode : Edge -> JSONObject -> Edge * option error;
  dedupNodes : list Node -> list Node;
  dedupEdges : list Edge -> list Edge;
  getTimeFilter : option TimeSlice -> option Filter;
  NewFilterForEdge : Identifier -> Identifier -> Filter
}.

(** [elasticsearch.ElasticSearchClientInterface], the methods the modelled
    functions call.  A method takes the client's state and returns the
    Go results with the client's next state. *)
Class ElasticSearchClientInterface (C : Type) := {
  FormatFilter : option Filter -> string -> C -> option ElasticQuery * C;
  RollIndex : C -> option error * C;
  BulkIndex : string -> string -> gmap string Value -> C -> (bool * option error) * C;
  BulkUpdateWithPartialDoc : string -> string -> gmap string Value -> C -> option error * C;
  Search : string -> BoolQuery -> string -> SearchQuery -> C ->
           (option SearchResult * option error) * C;
  GetIndexAlias : C -> string * C
}.

(** The receiver [b *ElasticSearchBackend] ([client], [prevRevision])
    together with the two pieces of the process the methods touch: the
    number of [time.Now()] readings taken so far and the logger's
    output. *)
Record State (C : Type) := {
  client : C;
  prevRevision : gmap Identifier Z;
  clockReads : nat;
  logged : list LogRecord
}.

End Types.

Arguments client {_ _}.
Arguments prevRevision {_ _}.
Arguments clockReads {_ _}.
Arguments logged {_ _}.

(** *** The state monad of the backend's methods *)

Section Monad.
Context `{Platform} {C : Type}.

(** A method that always returns: the result and the state it leaves. *)
Definition M (A : Type) : Type := State C -> A * State C.

Definition ret {A} (a : A) : M A := fun s => (a, s).

Definition bind {A B} (m : M A) (k : A -> M B) : M B :=
  fun s => let (a, s') := m s in k a s'.

(** A call of a client method. *)
Definition call {A} (method : C -> A * C) : M A :=
  fun s =>
    let (a, c) := method (client s) in
    (a, {| client := c; prevRevision := prevRevision s;
           clockReads := clockReads s; logged := logged s |}).

(** [b.prevRevision[id]] with its [ok]. *)
Definition lookupRevision (id : Identifier) : M (option Z) :=
  fun s => (prevRevision s !! id, s).

(** [b.prevRevision[id] = revision] *)
Definition storeRevision (id : Identifier) (rev : Z) : M unit :=
  fun s =>
    (tt, {| client := client s; prevRevision := <[id := rev]> (prevRevision s);
            clockReads := clockReads s; logged := logged s |}).

(** [delete(b.prevRevision, id)] *)
Definition deleteRevision (id : Identifier) : M unit :=
  fun s =>
    (tt, {| client := client s; prevRevision := delete id (prevRevision s);
            clockReads := clockReads s; logged := logged s |}).

(** [time.Now()] *)
Definition timeNow : M Time :=
  fun s =>
    (wallClock (clockReads s),
     {| client := client s; prevRevision := prevRevision s;
        clockReads := S (clockReads s); logged := logged s |}).

Definition logf (lvl : Level) (format : string) (args : list LogArg) : M unit :=
  fun s =>
    (tt, {| client := client s; prevRevision := prevRevision s;
            clockReads := clockReads s;
            logged := logged s ++ [ {| logLevel := lvl; logFormat := format;
                                       logArgs := args |} ] |}).

Definition Errorf := logf LevelError.
Definition Debugf := logf LevelDebug.

(** A method whose recursion is bounded by fuel: [None] when it ran out. *)
Definition F (A : Type) : Type := State C -> option (A * State C).

Definition retF {A} (a : A) : F A := fun s => Some (a, s).

Definition bindF {A B} (m : F A) (k : A -> F B) : F B :=
  fun s => match m s with
           | Some (a, s') => k a s'
           | None => None
           end.

Definition lift {A} (m : M A) : F A := fun s => Some (m s).

(** What a run bounded by fuel returned, and the state it left ([s0]
    when it ran out of fuel). *)
Definition outcome {A} (r : option (A * State C)) : option A := fst <$> r.

Definition finalState {A} (s0 : State C) (r : option (A * State C)) : State C :=
  from_option snd s0 r.

End Monad.

Declare Scope backend_scope.
Delimit Scope backend_scope with backend.

Notation "x <- m ;; k" := (bind m (fun x => k))
  (at level 100, m at next level, right associativity,
   format "'[v' x  <-  m  ;;  '/' k ']'") : backend_scope.
Notation "m ;;; k" := (bind m (fun _ => k))
  (at level 100, right associativity) : backend_scope.
Notation "m ;;;; k" := (bindF m (fun _ => k))
  (at level 100, right associativity) : backend_scope.
Notation "x <-- m ;; k" := (bindF m (fun x => k))
  (at level 100, m at next level, right associativity,
   format "'[v' x  <--  m  ;;  '/' k ']'") : backend_scope.

Section Backend.
Context `{Platform} `{!GraphPackage} {C : Type} `{!ElasticSearchClientInterface C}.

Local Open Scope string_scope.
Local Open Scope list_scope.
Local Open Scope backend_scope.

Local Abbreviation Doc := (gmap string Value).

Definition mapElement (e : graphElement) : Doc :=
  let obj : Doc :=
    <["ID" := VString (ID e)]>
    (<["Host" := VString (host e)]>
    (<["CreatedAt" := VInt64 (UnixMillis (createdAt e))]>
    (<["UpdatedAt" := VInt64 (UnixMillis (updatedAt e))]>
    (<["Metadata" := VMetadata (Clone (metadata e))]>
    (<["Revision" := VInt64 (revision e)]> ∅))))) in
  if negb (IsZero (deletedAt e))
  then <["DeletedAt" := VInt64 (UnixMillis (deletedAt e))]> obj
  else obj.

Definition mapNode (n : Node) : Doc := mapElement (nodeElement n).

Definition mapEdge (e : Edge) : Doc :=
  let obj := mapElement (edgeElement e) in
  let obj := <["Parent" := VIdentifier (parent e)]> obj in
  let obj := <["Child" := VIdentifier (child e)]> obj in
  obj.

Definition updateTimes (i : element) : M (C:=C) bool :=
  let obj : Doc := ∅ in
  sw <- match i with
        | INode n =>
            let kind := "node" in
            r <- lookupRevision (ID (nodeElement n)) ;;
            match r with
            | None =>
                Errorf "Update from an unknow revision, node: %s"
                       [LStr (ID (nodeElement n))] ;;;
                ret None
            | Some revision =>
                let id := ID (nodeElement n) +:+ "-" +:+ FormatInt revision in
                let obj := <["ArchivedAt" := VInt64 (UnixMillis (updatedAt (nodeElement n)))]> obj in
                ret (Some (kind, id, obj))
            end
        | IEdge e =>
            let kind := "edge" in
            r <- lookupRevision (ID (edgeElement e)) ;;
            match r with
            | None =>
                Errorf "Update from an unknow revision, edge: %s"
                       [LStr (ID (edgeElement e))] ;;;
                ret None
            | Some revision =>
                let id := ID (edgeElement e) +:+ "-" +:+ FormatInt revision in
                let obj := <["ArchivedAt" := VInt64 (UnixMillis (updatedAt (edgeElement e)))]> obj in
                ret (Some (kind, id, obj))
            end
        | IOther => ret (Some ("", "", obj))
        end ;;
  match sw with
  | None => ret false
  | Some (kind, id, obj) =>
      err <- call (BulkUpdateWithPartialDoc kind id obj) ;;
      match err with
      | Some err =>
          Errorf "Error while archiving %s %s: %s" [LStr kind; LStr id; LStr err] ;;;
          ret false
      | None => ret true
      end
  end.

(** [hitToNode] and [hitToEdge] write through their pointer argument:
    the element as the call leaves it is returned with the error. *)
Definition hitToNode (source : RawMessage) (node : Node) : Node * option error :=
  match JSONDecode source with
  | inl err => (node, Some err)
  | inr obj =>
      match NodeDecode node obj with
      | (node, Some err) => (node, Some err)
      | (node, None) => (node, None)
      end
  end.

Definition hitToEdge (source : RawMessage) (edge : Edge) : Edge * option error :=
  match JSONDecode source with
  | inl err => (edge, Some err)
  | inr obj =>
      match EdgeDecode edge obj with
      | (edge, Some err) => (edge, Some err)
      | (edge, None) => (edge, None)
      end
  end.

(** [NodeDeleted] *)
Definition NodeDeleted (n : Node) : M (C:=C) bool :=
  deleteRevision (ID (nodeElement n)) ;;;
  let ms := UnixMillis (deletedAt (nodeElement n)) in
  let obj : Doc := <["DeletedAt" := VInt64 ms]> (<["ArchivedAt" := VInt64 ms]> ∅) in
  let id := ID (nodeElement n) +:+ "-" +:+ FormatInt (revision (nodeElement n)) in
  err <- call (BulkUpdateWithPartialDoc "node" id obj) ;;
  match err with
  | Some err =>
      Errorf "Error while marking node as deleted %s: %s" [LStr id; LStr err] ;;;
      ret false
  | None => ret true
  end.

(** [EdgeDeleted] *)
Definition EdgeDeleted (e : Edge) : M (C:=C) bool :=
  deleteRevision (ID (edgeElement e)) ;;;
  let ms := UnixMillis (deletedAt (edgeElement e)) in
  let obj : Doc := <["DeletedAt" := VInt64 ms]> (<["ArchivedAt" := VInt64 ms]> ∅) in
  let id := ID (edgeElement e) +:+ "-" +:+ FormatInt (revision (edgeElement e)) in
  err <- call (BulkUpdateWithPartialDoc "edge" id obj) ;;
  match err with
  | Some err =>
      Errorf "Error while marking edge as deleted %s: %s" [LStr id; LStr err] ;;;
      ret false
  | None => ret true
  end.

(** [Query]: [filters = append(filters, x)] for each formatted filter
    that is not nil, then the search with their conjunction. *)
Definition Query (obj : string) (tsq : TimedSearchQuery) (index : string)
    : M (C:=C) (option SearchResult * option error) :=
  let filters : list ElasticQuery := [] in
  tf <- call (FormatFilter (TimeFilter tsq) "") ;;
  let filters := match tf with Some tf => filters ++ [tf] | None => filters end in
  f <- call (FormatFilter (sqFilter (tsqSearchQuery tsq)) "") ;;
  let filters := match f with Some f => filters ++ [f] | None => filters end in
  mf <- call (FormatFilter (MetadataFilter tsq) "Metadata") ;;
  let filters := match mf with Some mf => filters ++ [mf] | None => filters end in
  let mustQuery := Must NewBoolQuery filters in
  call (Search obj mustQuery index (tsqSearchQuery tsq)).

(** The loop of [searchNodes] over [out.Hits.Hits], started with the
    nodes collected so far. *)
Fixpoint searchNodesHits (hits : list SearchHit) (nodes : list Node)
    : M (C:=C) (list Node) :=
  match hits with
  | [] => ret nodes
  | d :: hits =>
      let (node, err) := hitToNode (Source d) zeroNode in
      match err with
      | Some _ => Debugf "Failed to unmarshal node: %+v" [LRaw (Source d)]
      | None => ret tt
      end ;;;
      searchNodesHits hits (nodes ++ [node])
  end.

Definition searchNodes (tsq : TimedSearchQuery) (index : string)
    : M (C:=C) (list Node) :=
  r <- Query "node" tsq index ;;
  let (out, err) := r in
  match err with
  | Some err => Errorf "Failed to query nodes: %s" [LStr err] ;;; ret []
  | None =>
      match out with
      | Some out =>
          if (0 <? length (Hits out))%nat then searchNodesHits (Hits out) []
          else ret []
      | None => ret []
      end
  end.

Fixpoint searchEdgesHits (hits : list SearchHit) (edges : list Edge)
    : M (C:=C) (list Edge) :=
  match hits with
  | [] => ret edges
  | d :: hits =>
      let (edge, err) := hitToEdge (Source d) zeroEdge in
      match err with
      | Some _ => Debugf "Failed to unmarshal edge: %+v" [LRaw (Source d)]
      | None => ret tt
      end ;;;
      searchEdgesHits hits (edges ++ [edge])
  end.

Definition searchEdges (tsq : TimedSearchQuery) (index : string)
    : M (C:=C) (list Edge) :=
  r <- Query "edge" tsq index ;;
  let (out, err) := r in
  match err with
  | Some err => Errorf "Failed to query edges: %s" [LStr err] ;;; ret []
  | None =>
      match out with
      | Some out =>
          if (0 <? length (Hits out))%nat then searchEdgesHits (Hits out) []
          else ret []
      | None => ret []
      end
  end.

(** [GetNode] *)
Definition GetNode (i : Identifier) (t : GraphContext) : M (C:=C) (list Node) :=
  let index := "" in
  index <- match ctxTimeSlice t with
           | None => call GetIndexAlias
           | Some _ => ret index
           end ;;
  nodes <- searchNodes
             {| tsqSearchQuery :=
                  {| sqFilter := Some (NewTermStringFilter "ID" i);
                     Sort := true; SortBy := "Revision" |};
                TimeFilter := getTimeFilter (ctxTimeSlice t);
                MetadataFilter := None |} index ;;
  if (1 <? length nodes)%nat && TimePoint t then
    match nodes !! (length nodes - 1)%nat with
    | Some n => ret [n]
    | None => ret []   (* not reached: the index is in range *)
    end
  else ret nodes.

(** [GetEdge] *)
Definition GetEdge (i : Identifier) (t : GraphContext) : M (C:=C) (list Edge) :=
  let index := "" in
  index <- match ctxTimeSlice t with
           | None => call GetIndexAlias
           | Some _ => ret index
           end ;;
  edges <- searchEdges
             {| tsqSearchQuery :=
                  {| sqFilter := Some (NewTermStringFilter "ID" i);
                     Sort := true; SortBy := "Revision" |};
                TimeFilter := getTimeFilter (ctxTimeSlice t);
                MetadataFilter := None |} index ;;
  if (1 <? length edges)%nat && TimePoint t then
    match edges !! (length edges - 1)%nat with
    | Some e => ret [e]
    | None => ret []   (* not reached: the index is in range *)
    end
  else ret edges.

(** [GetEdges].  The matcher [m] is [None] for the nil interface. *)
Definition GetEdges (t : GraphContext) (m : option GraphElementMatcher)
    : M (C:=C) (list Edge) :=
  let index := "" in
  index <- match ctxTimeSlice t with
           | None => call GetIndexAlias
           | Some _ => ret index
           end ;;
  let search (filter : option Filter) : M (C:=C) (list Edge) :=
    let searchQuery :=
      if negb (TimePoint t)
      then {| sqFilter := None; Sort := true; SortBy := "UpdatedAt" |}
      else zeroSearchQuery in
    edges <- searchEdges
               {| tsqSearchQuery := searchQuery;
                  TimeFilter := getTimeFilter (ctxTimeSlice t);
                  MetadataFilter := filter |} index ;;
    if TimePoint t then ret (dedupEdges edges) else ret edges in
  match m with
  | Some m =>
      let (f, err) := matcherFilter m in
      match err with
      | Some _ => ret []
      | None => search f
      end
  | None => search None
  end.

(** [GetNodes] *)
Definition GetNodes (t : GraphContext) (m : option GraphElementMatcher)
    : M (C:=C) (list Node) :=
  let index := "" in
  index <- match ctxTimeSlice t with
           | None => call GetIndexAlias
           | Some _ => ret index
           end ;;
  let search (filter : option Filter) : M (C:=C) (list Node) :=
    let searchQuery :=
      if negb (TimePoint t)
      then {| sqFilter := None; Sort := true; SortBy := "UpdatedAt" |}
      else zeroSearchQuery in
    nodes <- searchNodes
               {| tsqSearchQuery := searchQuery;
                  TimeFilter := getTimeFilter (ctxTimeSlice t);
                  MetadataFilter := filter |} index ;;
    if (1 <? length nodes)%nat && TimePoint t then ret (dedupNodes nodes)
    else ret nodes in
  match m with
  | Some m =>
      let (f, err) := matcherFilter m in
      match err with
      | Some _ => ret []
      | None => search f
      end
  | None => search None
  end.

(** [GetNodeEdges] *)
Definition GetNodeEdges (n : Node) (t : GraphContext)
    (m : option GraphElementMatcher) : M (C:=C) (list Edge) :=
  let index := "" in
  index <- match ctxTimeSlice t with
           | None => call GetIndexAlias
           | Some _ => ret index
           end ;;
  let search (filter : option Filter) : M (C:=C) (list Edge) :=
    let searchQuery :=
      if negb (TimePoint t)
      then {| sqFilter := None; Sort := true; SortBy := "UpdatedAt" |}
      else zeroSearchQuery in
    let searchQuery :=
      {| sqFilter := Some (NewFilterForEdge (ID (nodeElement n)) (ID (nodeElement n)));
         Sort := Sort searchQuery; SortBy := SortBy searchQuery |} in
    edges <- searchEdges
               {| tsqSearchQuery := searchQuery;
                  TimeFilter := getTimeFilter (ctxTimeSlice t);
                  MetadataFilter := filter |} index ;;
    if (1 <? length edges)%nat && TimePoint t then ret (dedupEdges edges)
    else ret edges in
  match m with
  | Some m =>
      let (f, err) := matcherFilter m in
      match err with
      | Some _ => ret []
      | None => search f
      end
  | None => search None
  end.

(** [IsHistorySupported] *)
Definition IsHistorySupported : bool := true.

(** *** Create, rollover, update

    [createNode] and [createEdge] call [rollAndDumpTopology], which calls
    them back for every element it fetched; how deep this goes depends on
    the client's answers.  The bodies are written once, over the
    rollover they call, and the knot is tied by fuel: the number of
    rollovers that may be nested. *)

Definition createNodeWith (roll : F (C:=C) (option error)) (n : Node)
    : F (C:=C) bool :=
  let obj := mapNode n in
  let id := ID (nodeElement n) +:+ "-" +:+ FormatInt (revision (nodeElement n)) in
  r <-- lift (call (BulkIndex "node" id obj)) ;;
  let (shouldRoll, err) := r in
  match err with
  | Some err =>
      lift (Errorf "Error while adding node %s: %s"
                   [LStr (ID (nodeElement n)); LStr err] ;;;
            ret false)
  | None =>
      lift (storeRevision (ID (nodeElement n)) (revision (nodeElement n))) ;;;;
      if shouldRoll then
        err <-- roll ;;
        match err with
        | Some err =>
            lift (Errorf "Error while dumping topology: %s" [LStr err] ;;;
                  ret false)
        | None => retF true
        end
      else retF true
  end.

Definition createEdgeWith (roll : F (C:=C) (option error)) (e : Edge)
    : F (C:=C) bool :=
  let obj := mapEdge e in
  let id := ID (edgeElement e) +:+ "-" +:+ FormatInt (revision (edgeElement e)) in
  r <-- lift (call (BulkIndex "edge" id obj)) ;;
  let (shouldRoll, err) := r in
  match err with
  | Some err =>
      lift (Errorf "Error while adding edge %s: %s"
                   [LStr (ID (edgeElement e)); LStr err] ;;;
            ret false)
  | None =>
      lift (storeRevision (ID (edgeElement e)) (revision (edgeElement e))) ;;;;
      if shouldRoll then
        err <-- roll ;;
        match err with
        | Some err =>
            lift (Errorf "Error while dumping topology: %s" [LStr err] ;;;
                  ret false)
        | None => retF true
        end
      else retF true
  end.

(** [for _, node := range nodes { node.updatedAt = time.Now();
    b.updateTimes(node) }]: the nodes are pointers, so the new
    [updatedAt] is what the later loop re-creates; the result of
    [updateTimes] is dropped. *)
Fixpoint archiveNodes (nodes : list Node) : M (C:=C) (list Node) :=
  match nodes with
  | [] => ret []
  | node :: nodes =>
      now <- timeNow ;;
      let node := {| nodeElement := setUpdatedAt now (nodeElement node) |} in
      updateTimes (INode node) ;;;
      nodes <- archiveNodes nodes ;;
      ret (node :: nodes)
  end.

Fixpoint archiveEdges (edges : list Edge) : M (C:=C) (list Edge) :=
  match edges with
  | [] => ret []
  | edge :: edges =>
      now <- timeNow ;;
      let edge := {| edgeElement := setUpdatedAt now (edgeElement edge);
                     parent := parent edge; child := child edge |} in
      updateTimes (IEdge edge) ;;;
      edges <- archiveEdges edges ;;
      ret (edge :: edges)
  end.

(** [for _, x := range xs { create(x) }], the result of each call
    dropped. *)
Fixpoint forEach {A B} (create : A -> F (C:=C) B) (xs : list A) : F (C:=C) unit :=
  match xs with
  | [] => retF tt
  | x :: xs => create x ;;;; forEach create xs
  end.

Fixpoint rollAndDumpTopology (fuel : nat) : F (C:=C) (option error) :=
  match fuel with
  | O => fun _ => None
  | S fuel =>
      nodes <-- lift (GetNodes {| ctxTimeSlice := None; TimePoint := false |} None) ;;
      edges <-- lift (GetEdges {| ctxTimeSlice := None; TimePoint := false |} None) ;;
      lift (Debugf "Mark all current nodes and edges as 'archived now' in the old index" []) ;;;;
      nodes <-- lift (archiveNodes nodes) ;;
      edges <-- lift (archiveEdges edges) ;;
      lift (Debugf "Rolling the Index " []) ;;;;
      err <-- lift (call RollIndex) ;;
      match err with
      | Some err => retF (Some err)
      | None =>
          lift (Debugf "Insert all current nodes and edges to the new index" []) ;;;;
          forEach (createNodeWith (rollAndDumpTopology fuel)) nodes ;;;;
          forEach (createEdgeWith (rollAndDumpTopology fuel)) edges ;;;;
          retF None
      end
  end.

Definition createNode (fuel : nat) (n : Node) : F (C:=C) bool :=
  createNodeWith (rollAndDumpTopology fuel) n.

Definition createEdge (fuel : nat) (e : Edge) : F (C:=C) bool :=
  createEdgeWith (rollAndDumpTopology fuel) e.

(** [NodeAdded] *)
Definition NodeAdded (fuel : nat) (n : Node) : F (C:=C) bool := createNode fuel n.

(** [EdgeAdded] *)
Definition EdgeAdded (fuel : nat) (e : Edge) : F (C:=C) bool := createEdge fuel e.

(** [MetadataUpdated] *)
Definition MetadataUpdated (fuel : nat) (i : element) : F (C:=C) bool :=
  ok <-- lift (updateTimes i) ;;
  if negb ok then retF false
  else
    let success := true in
    match i with
    | INode n => success <-- createNode fuel n ;; retF success
    | IEdge e => success <-- createEdge fuel e ;; retF success
    | IOther => retF success
    end.

End Backend.

(** *** Observing the client

    What the backend asks of the store is observed the way a test double
    does it: a client that wraps any other client and records every call
    with its arguments and its answer, in the order the calls are made. *)

Section Recorder.
Context `{Platform}.

Inductive Call :=
| CallFormatFilter (f : option Filter) (prefix : string) (q : option ElasticQuery)
| CallRollIndex (err : option error)
| CallBulkIndex (kind id : string) (obj : gmap string Value)
                (shouldRoll : bool) (err : option error)
| CallBulkUpdateWithPartialDoc (kind id : string) (obj : gmap string Value)
                               (err : option error)
| CallSearch (obj : string) (q : BoolQuery) (index : string) (sq : SearchQuery)
             (out : option SearchResult) (err : option error)
| CallGetIndexAlias (alias : string).

Record Recorder (C : Type) := {
  inner : C;
  calls : list Call
}.
Arguments inner {_}.
Arguments calls {_}.

Context {C : Type} `{!ElasticSearchClientInterface C}.

Definition record {A} (method : C -> A * C) (event : A -> Call)
    (r : Recorder C) : A * Recorder C :=
  let (a, c) := method (inner r) in
  (a, {| inner := c; calls := calls r ++ [event a] |}).

#[global] Instance recorderClient : ElasticSearchClientInterface (Recorder C) := {|
  FormatFilter f prefix := record (FormatFilter f prefix) (CallFormatFilter f prefix);
  RollIndex := record RollIndex CallRollIndex;
  BulkIndex kind id obj :=
    record (BulkIndex kind id obj) (fun r => CallBulkIndex kind id obj (fst r) (snd r));
  BulkUpdateWithPartialDoc kind id obj :=
    record (BulkUpdateWithPartialDoc kind id obj)
           (CallBulkUpdateWithPartialDoc kind id obj);
  Search obj q index sq :=
    record (Search obj q index sq) (fun r => CallSearch obj q index sq (fst r) (snd r));
  GetIndexAlias := record GetIndexAlias CallGetIndexAlias
|}.

(** The calls recorded so far in a state of the backend. *)
Definition trace (s : State (Recorder C)) : list Call := calls (client s).

Definition isBulkIndex (c : Call) : bool :=
  match c with CallBulkIndex _ _ _ _ _ => true | _ => false end.

Definition isRollIndex (c : Call) : bool :=
  match c with CallRollIndex _ => true | _ => false end.

Definition isSearch (c : Call) : bool :=
  match c with CallSearch _ _ _ _ _ _ => true | _ => false end.

(** A store write: an index or a partial update of a document. *)
Definition isWrite (c : Call) : bool :=
  match c with
  | CallBulkIndex _ _ _ _ _ | CallBulkUpdateWithPartialDoc _ _ _ _ => true
  | _ => false
  end.

(** A call in short: the method, the document ID (the kind, for a
    search) and the error it returned. *)
Definition summary (c : Call) : string * string * option error :=
  match c with
  | CallFormatFilter _ _ _ => ("FormatFilter", "", None)
  | CallRollIndex err => ("RollIndex", "", err)
  | CallBulkIndex _ id _ _ err => ("BulkIndex", id, err)
  | CallBulkUpdateWithPartialDoc _ id _ err => ("BulkUpdateWithPartialDoc", id, err)
  | CallSearch obj _ _ _ _ err => ("Search", obj, err)
  | CallGetIndexAlias _ => ("GetIndexAlias", "", None)
  end.

(** Elasticsearch's reading of a bool query that has only [must]
    clauses: a document matches when it matches every clause, so the
    query without clauses matches every document. *)
Definition boolQueryMatches (matches : ElasticQuery -> gmap string Value -> bool)
    (q : BoolQuery) (doc : gmap string Value) : bool :=
  forallb (fun clause => matches clause doc) (mustClauses q).

(** The element behind an [interface{}] argument, and the document kind
    the type switches choose for it. *)
Definition elementOf (i : element) : option graphElement :=
  match i with
  | INode n => Some (nodeElement n)
  | IEdge e => Some (edgeElement e)
  | IOther => None
  end.

Definition kindOf (i : element) : string :=
  match i with
  | INode _ => "node"
  | IEdge _ => "edge"
  | IOther => ""
  end.

End Recorder.

Arguments inner {_ _}.
Arguments calls {_ _}.

(** *** Relations between the state before and after a method *)

Section Relations.
Context `{Platform} {C : Type}.

(** [m] relates every state to the state it leaves by [R]. *)
Definition preserves (R : State C -> State C -> Prop) {A} (m : M A) : Prop :=
  forall s, R s (snd (m s)).

Definition preservesF (R : State C -> State C -> Prop) {A} (m : F A) : Prop :=
  forall s a s', m s = Some (a, s') -> R s s'.

(** The revision tracker is left as it was. *)
Definition trackerKept (s s' : State C) : Prop :=
  prevRevision s' = prevRevision s.

(** The calls made in between all satisfy [P]. *)
Definition traceGrows (P : Call -> Prop) (s s' : State (Recorder C)) : Prop :=
  exists events, trace s' = trace s ++ events /\ Forall P events.

(** The calls of the query path and of archival: neither an index
    write nor a roll of the index. *)
Definition readOrArchive (c : Call) : Prop :=
  isRollIndex c = false /\ isBulkIndex c = false.

(** The elements of [xs] come in ascending order of [key]. *)
Fixpoint ascending {A} (key : A -> Z) (xs : list A) : bool :=
  match xs with
  | a :: (b :: _) as rest => (key a <=? key b)%Z && ascending key rest
  | _ => true
  end.

(** The document [createNode] or [createEdge] writes for an element. *)
Definition documentOf (i : element) : gmap string Value :=
  match i with
  | INode n => mapNode n
  | IEdge e => mapEdge e
  | IOther => ∅
  end.

End Relations.

(** *** The rest of the backend: [GetEdgeNodes], [getElement] and the
    constructor

    They use three things from outside the two files: the [MatchMetadata]
    method of a node, and the [Get] and [Start] methods of the store
    client. *)

Section BackendRest.
Context `{Platform} `{!GraphPackage} {C : Type} `{!ElasticSearchClientInterface C}.
Local Open Scope string_scope.
Local Open Scope list_scope.
Local Open Scope backend_scope.

Variable MatchMetadata : Node -> option GraphElementMatcher -> bool.

(** [GetEdgeNodes] *)
Definition GetEdgeNodes (e : Edge) (t : GraphContext)
    (parentMetadata childMetadata : option GraphElementMatcher)
    : M (C:=C) (list Node * list Node) :=
  found <- GetNode (parent e) t ;;
  let parents := List.filter (fun parent => MatchMetadata parent parentMetadata) found in
  found <- GetNode (child e) t ;;
  let children := List.filter (fun child => MatchMetadata child childMetadata) found in
  ret (parents, children).

(** [elastic.GetResult]: [Found] and [Source]. *)
Record GetResult := { Found : bool; getSource : RawMessage }.

Variable Get : string -> string -> C -> (GetResult * option error) * C.

(** [getElement] writes the decoded document through its [element]
    argument: the element as the call leaves it is returned with the
    error. *)
Definition getElement (kind : string) (i : Identifier) (elem : element)
    : M (C:=C) (element * option error) :=
  r <- call (Get kind i) ;;
  let (resp, err) := r in
  match err with
  | Some err => ret (elem, Some err)
  | None =>
      let notFound := ret (elem, Some ("No object found " +:+ i)) in
      if Found resp then
        match elem with
        | INode e => let (e, err) := hitToNode (getSource resp) e in ret (INode e, err)
        | IEdge e => let (e, err) := hitToEdge (getSource resp) e in ret (IEdge e, err)
        | IOther => notFound
        end
      else notFound
  end.

Variable Start : C -> C.

(** [NewElasticSearchBackendFromClient], in a process that has read the
    clock [reads] times and logged [log] so far. *)
Definition NewElasticSearchBackendFromClient (client : C) (reads : nat)
    (log : list LogRecord) : State C * option error :=
  let client := Start client in
  ({| client := client; prevRevision := ∅; clockReads := reads; logged := log |}, None).

End BackendRest.

(** *** A concrete platform and a scripted store

    Used to run the backend on explicit inputs. *)

Module fixture.

Local Open Scope string_scope.

(** Times are Unix milliseconds, with 0 standing for the zero
    [time.Time]; the [k]-th reading of the clock is [k].  Metadata is a
    string map.  A filter and its formatted query are the text of the
    condition.  A raw message is either malformed ([None]) or the JSON
    of an element, of which the decoders read the [ID] and the
    [Revision]. *)
#[global] Instance platform : Platform := {|
  Time := Z;
  zeroTime := 0%Z;
  IsZero t := (t =? 0)%Z;
  UnixMillis t := t;
  wallClock k := Z.of_nat k;
  Metadata := gmap string string;
  nilMetadata := ∅;
  Clone m := m;
  TimeSlice := Z * Z;
  Filter := string;
  ElasticQuery := string;
  NewTermStringFilter k v := String.append k v;
  RawMessage := option (Identifier * Z);
  JSONObject := Identifier * Z;
  JSONDecode raw :=
    match raw with
    | Some obj => inr obj
    | None => inl "unexpected end of JSON input"
    end
|}.

Definition decodeElement (e : graphElement) (obj : Identifier * Z) : graphElement :=
  {| ID := fst obj; metadata := metadata e; host := host e;
     createdAt := createdAt e; updatedAt := updatedAt e;
     deletedAt := deletedAt e; revision := snd obj |}.

(** The decoders never fail on a parsed object; [dedupNodes] and
    [dedupEdges] stand for functions the runs below never reach. *)
#[global] Instance graphPackage : GraphPackage := {|
  NodeDecode n obj := ({| nodeElement := decodeElement (nodeElement n) obj |}, None);
  EdgeDecode e obj :=
    ({| edgeElement := decodeElement (edgeElement e) obj;
        parent := parent e; child := child e |}, None);
  dedupNodes nodes := nodes;
  dedupEdges edges := edges;
  getTimeFilter ts :=
    match ts with
    | Some (start, last) => Some ("time in slice")
    | None => None
    end;
  NewFilterForEdge parent child := "Parent=" +:+ parent +:+ " or Child=" +:+ child
|}.

(** A store that answers from a script: each method pops its next
    answer, and answers with plain success once its script is empty. *)
Record Scripted := {
  indexReplies : list (bool * option error);
  updateReplies : list (option error);
  rollReplies : list (option error);
  searchReplies : list (option SearchResult * option error)
}.

#[global] Instance scriptedClient : ElasticSearchClientInterface Scripted := {|
  FormatFilter f prefix c := (f, c);
  RollIndex c :=
    match rollReplies c with
    | r :: rest =>
        (r, {| indexReplies := indexReplies c; updateReplies := updateReplies c;
               rollReplies := rest; searchReplies := searchReplies c |})
    | [] => (None, c)
    end;
  BulkIndex kind id obj c :=
    match indexReplies c with
    | r :: rest =>
        (r, {| indexReplies := rest; updateReplies := updateReplies c;
               rollReplies := rollReplies c; searchReplies := searchReplies c |})
    | [] => ((false, None), c)
    end;
  BulkUpdateWithPartialDoc kind id obj c :=
    match updateReplies c with
    | r :: rest =>
        (r, {| indexReplies := indexReplies c; updateReplies := rest;
               rollReplies := rollReplies c; searchReplies := searchReplies c |})
    | [] => (None, c)
    end;
  Search obj q index sq c :=
    match searchReplies c with
    | r :: rest =>
        (r, {| indexReplies := indexReplies c; updateReplies := updateReplies c;
               rollReplies := rollReplies c; searchReplies := rest |})
    | [] => ((Some {| Hits := [] |}, None), c)
    end;
  GetIndexAlias c := ("topology_live", c)
|}.

Definition element (id : Identifier) (rev : Z) (updated : Z) : graphElement :=
  {| ID := id; metadata := ∅; host := "host1";
     createdAt := 1%Z; updatedAt := updated;
     deletedAt := zeroTime; revision := rev |}.

Definition node (id : Identifier) (rev : Z) (updated : Z) : Node :=
  {| nodeElement := element id rev updated |}.

Definition edge (id : Identifier) (rev : Z) (updated : Z) : Edge :=
  {| edgeElement := element id rev updated; parent := "n1"; child := "n2" |}.

(** A backend over a recorded scripted store, with the given tracker. *)
Definition backend (script : Scripted) (tracker : gmap Identifier Z)
    : State (Recorder Scripted) :=
  {| client := {| inner := script; calls := [] |};
     prevRevision := tracker; clockReads := 0; logged := [] |}.

Definition script (index : list (bool * option error)) (update roll : list (option error))
    (search : list (option SearchResult * option error)) : Scripted :=
  {| indexReplies := index; updateReplies := update; rollReplies := roll;
     searchReplies := search |}.

Definition hit (id : Identifier) (rev : Z) : SearchHit := {| Source := Some (id, rev) |}.

(** A hit whose source is not JSON. *)
Definition malformedHit : SearchHit := {| Source := None |}.

Definition found (hits : list SearchHit) : option SearchResult * option error :=
  (Some {| Hits := hits |}, None).

(** The query without any filter. *)
Definition anyQuery : TimedSearchQuery :=
  {| tsqSearchQuery := zeroSearchQuery; TimeFilter := None; MetadataFilter := None |}.

(** The current graph: no time slice. *)
Definition now (timePoint : bool) : GraphContext :=
  {| ctxTimeSlice := None; TimePoint := timePoint |}.

(** A matcher whose [Filter()] fails. *)
Definition failingMatcher : GraphElementMatcher :=
  {| matcherFilter := (None, Some "unsupported metadata matcher") |}.

(** A store on which everything succeeds, behind a backend that has
    recorded nothing yet, and behind one that has written revision 0 of
    "n1" and of "e1". *)
Definition fresh : State (Recorder Scripted) := backend (script [] [] [] []) ∅.

Definition tracking : State (Recorder Scripted) :=
  backend (script [] [] [] []) (<["n1" := 0%Z]> (<["e1" := 0%Z]> ∅)).

(** A store that accepts a document and asks for a rollover, and whose
    roll of the index then fails. *)
Definition rollFails : State (Recorder Scripted) :=
  backend (script [(true, None)] [] [Some "no such alias"] []) ∅.

(** A store that accepts a document and asks for a rollover; the search
    for the live nodes finds "n7" at revision 3, its archival fails, the
    roll succeeds, and the re-creation of "n7" fails. *)
Definition rollSucceedsAroundFailures : State (Recorder Scripted) :=
  backend (script [(true, None); (false, Some "index closed")]
                  [Some "version conflict"] []
                  [found [hit "n7" 3]])
          (<["n7" := 3%Z]> ∅).

(** A store whose next search finds three revisions of "n1". *)
Definition threeRevisions : State (Recorder Scripted) :=
  backend (script [] [] [] [found [hit "n1" 0; hit "n1" 1; hit "n1" 2]]) ∅.

(** A store whose next search finds a hit that is not JSON between two
    that are. *)
Definition oneMalformed : State (Recorder Scripted) :=
  backend (script [] [] [] [found [hit "n1" 3; malformedHit; hit "n2" 1]]) ∅.

End fixture.

(** ** The capture form (the Vue component [capture-form])

    Its computed properties [queryError] and [query].  The fields they
    read are bound to text inputs and radio buttons and hold strings; a
    JavaScript string is falsy exactly when it is empty, and [undefined] is
    [None]. *)

Module captureForm.

Local Open Scope string_scope.

Record data := {
  node1 : string;
  node2 : string;
  userQuery : string;
  mode : string
}.

Definition truthy (s : string) : bool := negb (String.eqb s "").

Definition queryError (this : data) : option string :=
  if String.eqb (mode this) "gremlin" && negb (truthy (userQuery this)) then
    Some "Gremlin query can't be empty"
  else if String.eqb (mode this) "selection" && negb (truthy (node1 this)) then
    Some "At least one interface has to be selected"
  else None.

(** [if (this.queryError) return;]: the error, when there is one, is one
    of the two messages, and the test asks whether it is truthy. *)
Definition query (this : data) : option string :=
  if from_option truthy false (queryError this) then None
  else if String.eqb (mode this) "gremlin" then Some (userQuery this)
  else
    let q := "G.V().Has('TID', '" +:+ node1 this +:+ "')" in
    let q :=
      if truthy (node2 this)
      then q +:+ ".ShortestPathTo(Metadata('TID', '" +:+ node2 this +:+
           "'), Metadata('RelationType', 'layer2'))"
      else q in
    Some q.

End captureForm.

(** ** More relations and abbreviations for the statements *)

Section MoreRelations.
Context `{Platform} `{!GraphPackage} {C : Type}.
Local Open Scope string_scope.

(** A call that neither writes a document nor rolls the index. *)
Definition readOnlyCall (c : Call) : Prop :=
  isWrite c = false /\ isRollIndex c = false.

(** Nothing but reading was asked of the store, and the tracker and the
    clock are as they were. *)
Definition readOnly (s s' : State (Recorder C)) : Prop :=
  prevRevision s' = prevRevision s /\
  clockReads s' = clockReads s /\
  traceGrows readOnlyCall s s'.

(** Every ID the tracker knew it still knows. *)
Definition trackerGrows (s s' : State C) : Prop :=
  dom (prevRevision s) ⊆ dom (prevRevision s').

(** The node a hit gives, decoded into a fresh [Node]; whether that
    decoding failed; and the debug record written when it did. *)
Definition decodedNode (d : SearchHit) : Node := fst (hitToNode (Source d) zeroNode).

Definition nodeHitFails (d : SearchHit) : bool :=
  match snd (hitToNode (Source d) zeroNode) with Some _ => true | None => false end.

Definition nodeHitRecord (d : SearchHit) : LogRecord :=
  {| logLevel := LevelDebug; logFormat := "Failed to unmarshal node: %+v";
     logArgs := [LRaw (Source d)] |}.

Definition decodedEdge (d : SearchHit) : Edge := fst (hitToEdge (Source d) zeroEdge).

Definition edgeHitFails (d : SearchHit) : bool :=
  match snd (hitToEdge (Source d) zeroEdge) with Some _ => true | None => false end.

Definition edgeHitRecord (d : SearchHit) : LogRecord :=
  {| logLevel := LevelDebug; logFormat := "Failed to unmarshal edge: %+v";
     logArgs := [LRaw (Source d)] |}.

(** An element with everything but [updatedAt]. *)
Definition withoutUpdatedAt (e : graphElement)
    : Identifier * Metadata * string * Time * Time * Z :=
  (ID e, metadata e, host e, createdAt e, deletedAt e, revision e).

End MoreRelations.

(** The requests a search makes of the store, and the queries the lookups
    and the listings search with. *)
Section Requests.
Context `{Platform} `{!GraphPackage}.
Local Open Scope string_scope.

(** The calls of one [Query]: the three filters formatted, then the
    search with the conjunction of those that are not nil. *)
Definition searchRequests (kind : string) (tsq : TimedSearchQuery) (index : string)
    (tf f mf : option ElasticQuery) (out : option SearchResult) (err : option error)
    : list Call :=
  [CallFormatFilter (TimeFilter tsq) "" tf;
   CallFormatFilter (sqFilter (tsqSearchQuery tsq)) "" f;
   CallFormatFilter (MetadataFilter tsq) "Metadata" mf;
   CallSearch kind {| mustClauses := omap id [tf; f; mf] |} index
              (tsqSearchQuery tsq) out err].

(** Without a time slice the index alias is asked for, and searched. *)
Definition indexRequests (t : GraphContext) (alias : string) : list Call :=
  match ctxTimeSlice t with
  | None => [CallGetIndexAlias alias]
  | Some _ => []
  end.

Definition indexSearched (t : GraphContext) (alias : string) : string :=
  match ctxTimeSlice t with
  | None => alias
  | Some _ => ""
  end.

(** The query of [GetNode] and [GetEdge]. *)
Definition lookupQuery (t : GraphContext) (i : Identifier) : TimedSearchQuery :=
  {| tsqSearchQuery :=
       {| sqFilter := Some (NewTermStringFilter "ID" i);
          Sort := true; SortBy := "Revision" |};
     TimeFilter := getTimeFilter (ctxTimeSlice t);
     MetadataFilter := None |}.

(** The query of [GetNodes], [GetEdges] and [GetNodeEdges]: sorted, by
    [UpdatedAt], exactly when the time-point flag is off. *)
Definition listingQuery (t : GraphContext) (filter identity : option Filter)
    : TimedSearchQuery :=
  {| tsqSearchQuery :=
       {| sqFilter := identity;
          Sort := negb (TimePoint t);
          SortBy := if TimePoint t then "" else "UpdatedAt" |};
     TimeFilter := getTimeFilter (ctxTimeSlice t);
     MetadataFilter := filter |}.

(** The matcher is nil, or its [Filter()] succeeds with [filter]. *)
Definition matcherGives (m : option GraphElementMatcher) (filter : option Filter) : Prop :=
  match m with
  | None => filter = None
  | Some m => matcherFilter m = (filter, None)
  end.

End Requests.

(** A configuration of application ports and a parser of port numbers,
    to run [NewApplicationPortMapFromConfig] on. *)
Module portFixture.

Local Open Scope string_scope.

Definition GetStringMapString (key : string) : list (string * string) :=
  if String.eqb key "flow.application_ports.tcp"
  then [("80", "http"); ("http", "web"); ("443", "https")]
  else if String.eqb key "flow.application_ports.udp"
  then [("53", "dns")]
  else [].

(** [strconv.Atoi] on the strings of this configuration. *)
Definition Atoi (s : string) : string + Z :=
  if String.eqb s "80" then inr 80%Z
  else if String.eqb s "443" then inr 443%Z
  else if String.eqb s "53" then inr 53%Z
  else inl "invalid syntax".

(** [strings.ToUpper] on the names of this configuration. *)
Definition ToUpper (s : string) : string :=
  if String.eqb s "http" then "HTTP"
  else if String.eqb s "https" then "HTTPS"
  else if String.eqb s "dns" then "DNS"
  else s.

End portFixture.

(** * Properties *)

(** ** Invariants carried through the methods

    A relation [R] between states that is reflexive and transitive and
    that the primitive steps of a method respect is respected by the
    method. *)

Section Preservation.
Context `{Platform} `{!GraphPackage} {C : Type} `{!ElasticSearchClientInterface C}.
Variable R : State C -> State C -> Prop.
Hypothesis R_refl : forall s, R s s.
Hypothesis R_trans : forall s1 s2 s3, R s1 s2 -> R s2 s3 -> R s1 s3.
Hypothesis R_logf : forall lvl format args, preserves R (logf lvl format args).
Hypothesis R_timeNow : preserves R timeNow.
Hypothesis R_FormatFilter : forall f prefix, preserves R (call (FormatFilter f prefix)).
Hypothesis R_Search :
  forall obj q index sq, preserves R (call (Search obj q index sq)).
Hypothesis R_GetIndexAlias : preserves R (call GetIndexAlias).
Hypothesis R_BulkUpdateWithPartialDoc :
  forall kind id obj, preserves R (call (BulkUpdateWithPartialDoc kind id obj)).

Lemma preserves_ret {A} (a : A) : preserves R (ret a).
Proof. intros s. apply R_refl. Qed.

Lemma preserves_bind {A B} (m : M A) (k : A -> M B) :
  preserves R m -> (forall a, preserves R (k a)) -> preserves R (bind m k).
Proof.
  intros Hm Hk s. unfold bind. specialize (Hm s).
  destruct (m s) as [a s1]. simpl in Hm.
  eapply R_trans; [exact Hm | apply Hk].
Qed.

Lemma preserves_lookupRevision id : preserves R (lookupRevision id).
Proof. intros s. apply R_refl. Qed.

Lemma preserves_Errorf format args : preserves R (Errorf format args).
Proof. apply R_logf. Qed.

Lemma preserves_Debugf format args : preserves R (Debugf format args).
Proof. apply R_logf. Qed.

Ltac preserve :=
  repeat first
    [ assumption
    | apply preserves_ret
    | apply preserves_lookupRevision
    | apply preserves_Errorf
    | apply preserves_Debugf
    | apply R_timeNow
    | apply R_FormatFilter
    | apply R_Search
    | apply R_GetIndexAlias
    | apply R_BulkUpdateWithPartialDoc
    | apply preserves_bind; [| intros ?]
    | match goal with
      | |- preserves _ (match ?x with _ => _ end) => destruct x
      end ].

Lemma preserves_Query obj tsq index : preserves R (Query obj tsq index).
Proof. unfold Query. preserve. Qed.

Lemma preserves_searchNodesHits hits nodes : preserves R (searchNodesHits hits nodes).
Proof.
  revert nodes. induction hits as [|d hits IH]; intros nodes; simpl.
  - preserve.
  - destruct (hitToNode (Source d) zeroNode) as [node err]. preserve. apply IH.
Qed.

Lemma preserves_searchEdgesHits hits edges : preserves R (searchEdgesHits hits edges).
Proof.
  revert edges. induction hits as [|d hits IH]; intros edges; simpl.
  - preserve.
  - destruct (hitToEdge (Source d) zeroEdge) as [edge err]. preserve. apply IH.
Qed.

Lemma preserves_searchNodes tsq index : preserves R (searchNodes tsq index).
Proof.
  unfold searchNodes. apply preserves_bind; [apply preserves_Query|].
  intros [out err]. preserve. apply preserves_searchNodesHits.
Qed.

Lemma preserves_searchEdges tsq index : preserves R (searchEdges tsq index).
Proof.
  unfold searchEdges. apply preserves_bind; [apply preserves_Query|].
  intros [out err]. preserve. apply preserves_searchEdgesHits.
Qed.

Lemma preserves_GetNode i t : preserves R (GetNode i t).
Proof.
  unfold GetNode. apply preserves_bind; [preserve|]. intros index.
  apply preserves_bind; [apply preserves_searchNodes|]. intros nodes. preserve.
Qed.

Lemma preserves_GetEdge i t : preserves R (GetEdge i t).
Proof.
  unfold GetEdge. apply preserves_bind; [preserve|]. intros index.
  apply preserves_bind; [apply preserves_searchEdges|]. intros edges. preserve.
Qed.

Lemma preserves_GetNodes t m : preserves R (GetNodes t m).
Proof.
  unfold GetNodes. apply preserves_bind; [preserve|]. intros index.
  assert (forall filter tsq, preserves R
            (bind (searchNodes {| tsqSearchQuery := tsq;
                                  TimeFilter := getTimeFilter (ctxTimeSlice t);
                                  MetadataFilter := filter |} index)
                  (fun nodes => if (1 <? length nodes)%nat && TimePoint t
                                then ret (dedupNodes nodes) else ret nodes))) as Hs.
  { intros. apply preserves_bind; [apply preserves_searchNodes|]. intros. preserve. }
  destruct m as [m|]; [destruct (matcherFilter m) as [f [err|]]|];
    first [apply preserves_ret | apply Hs].
Qed.

Lemma preserves_GetEdges t m : preserves R (GetEdges t m).
Proof.
  unfold GetEdges. apply preserves_bind; [preserve|]. intros index.
  assert (forall filter tsq, preserves R
            (bind (searchEdges {| tsqSearchQuery := tsq;
                                  TimeFilter := getTimeFilter (ctxTimeSlice t);
                                  MetadataFilter := filter |} index)
                  (fun edges => if TimePoint t
                                then ret (dedupEdges edges) else ret edges))) as Hs.
  { intros. apply preserves_bind; [apply preserves_searchEdges|]. intros. preserve. }
  destruct m as [m|]; [destruct (matcherFilter m) as [f [err|]]|];
    first [apply preserves_ret | apply Hs].
Qed.

Lemma preserves_updateTimes i : preserves R (updateTimes i).
Proof.
  unfold updateTimes. apply preserves_bind.
  - destruct i; preserve.
  - intros [[[kind id] obj]|]; preserve.
Qed.

Lemma preserves_archiveNodes nodes : preserves R (archiveNodes nodes).
Proof.
  induction nodes as [|node nodes IH]; simpl; [preserve|].
  apply preserves_bind; [preserve|]. intros now.
  apply preserves_bind; [apply preserves_updateTimes|]. intros _.
  apply preserves_bind; [apply IH|]. intros. preserve.
Qed.

Lemma preserves_archiveEdges edges : preserves R (archiveEdges edges).
Proof.
  induction edges as [|edge edges IH]; simpl; [preserve|].
  apply preserves_bind; [preserve|]. intros now.
  apply preserves_bind; [apply preserves_updateTimes|]. intros _.
  apply preserves_bind; [apply IH|]. intros. preserve.
Qed.

(** The methods bounded by fuel, when the index writes, the roll and
    the tracker update respect [R] too. *)
Hypothesis R_BulkIndex :
  forall kind id obj, preserves R (call (BulkIndex kind id obj)).
Hypothesis R_RollIndex : preserves R (call RollIndex).
Hypothesis R_storeRevision : forall id rev, preserves R (storeRevision id rev).

Lemma preservesF_lift {A} (m : M A) : preserves R m -> preservesF R (lift m).
Proof.
  intros Hm s a s' Heq. unfold lift in Heq. specialize (Hm s).
  destruct (m s); inversion Heq; subst; exact Hm.
Qed.

Lemma preservesF_retF {A} (a : A) : preservesF R (retF a).
Proof. intros s a' s' Heq. inversion Heq; subst. apply R_refl. Qed.

Lemma preservesF_bindF {A B} (m : F A) (k : A -> F B) :
  preservesF R m -> (forall a, preservesF R (k a)) -> preservesF R (bindF m k).
Proof.
  intros Hm Hk s b s' Heq. unfold bindF in Heq.
  destruct (m s) as [[a s1]|] eqn:Hms; [|discriminate].
  eapply R_trans; [eapply Hm; exact Hms | eapply Hk; exact Heq].
Qed.

Ltac preserveF :=
  repeat first
    [ assumption
    | apply preservesF_retF
    | apply preservesF_lift;
      first [apply R_BulkIndex | apply R_RollIndex | apply R_storeRevision | preserve]
    | apply preservesF_bindF; [| intros ?]
    | match goal with
      | |- preservesF _ (match ?x with _ => _ end) => destruct x
      end ].

Lemma preservesF_createNodeWith roll n :
  preservesF R roll -> preservesF R (createNodeWith roll n).
Proof.
  intros Hroll. unfold createNodeWith.
  apply preservesF_bindF; [preserveF|]. intros [shouldRoll err]. preserveF.
Qed.

Lemma preservesF_createEdgeWith roll e :
  preservesF R roll -> preservesF R (createEdgeWith roll e).
Proof.
  intros Hroll. unfold createEdgeWith.
  apply preservesF_bindF; [preserveF|]. intros [shouldRoll err]. preserveF.
Qed.

Lemma preservesF_forEach {A B} (create : A -> F B) xs :
  (forall x, preservesF R (create x)) -> preservesF R (forEach create xs).
Proof.
  intros Hc. induction xs as [|x xs IH]; simpl; [preserveF|].
  apply preservesF_bindF; [apply Hc | intros _; exact IH].
Qed.

Lemma preservesF_rollAndDumpTopology fuel : preservesF R (rollAndDumpTopology fuel).
Proof.
  induction fuel as [|fuel IH]; simpl; [intros s a s' Heq; discriminate|].
  apply preservesF_bindF; [apply preservesF_lift, preserves_GetNodes|]. intros nodes.
  apply preservesF_bindF; [apply preservesF_lift, preserves_GetEdges|]. intros edges.
  apply preservesF_bindF; [preserveF|]. intros _.
  apply preservesF_bindF; [apply preservesF_lift, preserves_archiveNodes|]. intros nodes'.
  apply preservesF_bindF; [apply preservesF_lift, preserves_archiveEdges|]. intros edges'.
  apply preservesF_bindF; [preserveF|]. intros _.
  apply preservesF_bindF; [preserveF|]. intros [err|]; [preserveF|].
  apply preservesF_bindF; [preserveF|]. intros _.
  apply preservesF_bindF.
  { apply preservesF_forEach. intros. apply preservesF_createNodeWith, IH. }
  intros _. apply preservesF_bindF; [|intros; preserveF].
  apply preservesF_forEach. intros. apply preservesF_createEdgeWith, IH.
Qed.

Lemma preservesF_createNode fuel n : preservesF R (createNode fuel n).
Proof. apply preservesF_createNodeWith, preservesF_rollAndDumpTopology. Qed.

Lemma preservesF_createEdge fuel e : preservesF R (createEdge fuel e).
Proof. apply preservesF_createEdgeWith, preservesF_rollAndDumpTopology. Qed.

(** A rollover that returns has run its fetch-and-archive part, then
    called [RollIndex], and reports that call's answer: on an error it
    stops there, otherwise it goes on to re-create what it fetched. *)
Lemma rollAndDumpTopology_inv fuel s r s' :
  rollAndDumpTopology fuel s = Some (r, s') ->
  exists s1, R s s1 /\
    r = fst (call RollIndex s1) /\
    match fst (call RollIndex s1) with
    | Some _ => s' = snd (call RollIndex s1)
    | None =>
        exists fuel' nodes edges s2,
          fuel = S fuel' /\
          forEach (createNodeWith (rollAndDumpTopology fuel')) nodes
            (snd (Debugf "Insert all current nodes and edges to the new index" []
                    (snd (call RollIndex s1)))) = Some (tt, s2) /\
          forEach (createEdgeWith (rollAndDumpTopology fuel')) edges s2 = Some (tt, s')
    end.
Proof.
  destruct fuel as [|fuel]; [discriminate|]. simpl. unfold bindF at 1, lift at 1.
  pose proof (preserves_GetNodes {| ctxTimeSlice := None; TimePoint := false |} None s) as H1.
  destruct (GetNodes _ _ s) as [nodes s1]. simpl in H1.
  unfold bindF at 1, lift at 1.
  pose proof (preserves_GetEdges {| ctxTimeSlice := None; TimePoint := false |} None s1) as H2.
  destruct (GetEdges _ _ s1) as [edges s2]. simpl in H2.
  unfold bindF at 1, lift at 1.
  match goal with |- context [Debugf ?f ?a s2] =>
    pose proof (preserves_Debugf f a s2) as H3; destruct (Debugf f a s2) as [[] s3] end.
  simpl in H3. unfold bindF at 1, lift at 1.
  pose proof (preserves_archiveNodes nodes s3) as H4.
  destruct (archiveNodes nodes s3) as [nodes' s4]. simpl in H4.
  unfold bindF at 1, lift at 1.
  pose proof (preserves_archiveEdges edges s4) as H5.
  destruct (archiveEdges edges s4) as [edges' s5]. simpl in H5.
  unfold bindF at 1, lift at 1.
  match goal with |- context [Debugf ?f ?a s5] =>
    pose proof (preserves_Debugf f a s5) as H6; destruct (Debugf f a s5) as [[] s6] end.
  simpl in H6. unfold bindF at 1, lift at 1.
  intros Hrest. exists s6. split.
  { repeat (eapply R_trans; [eassumption|]). apply R_refl. }
  destruct (call RollIndex s6) as [[err|] s7]; simpl.
  - inversion Hrest; subst. split; reflexivity.
  - unfold bindF at 1, lift at 1, Debugf, logf in Hrest. cbn beta iota in Hrest.
    unfold bindF at 1 in Hrest.
    destruct (forEach _ nodes' _) as [[[] s9]|] eqn:Hn; [|discriminate].
    unfold bindF at 1 in Hrest.
    destruct (forEach _ edges' s9) as [[[] s10]|] eqn:He; [|discriminate].
    inversion Hrest; subst. split; [reflexivity|].
    exists fuel, nodes', edges', s9. auto.
Qed.

End Preservation.

(** ** The application port map *)

Section ApplicationPorts.
Local Open Scope string_scope.

(** C10.  On a nil receiver [TCPApplication] and [UDPApplication] return
    the empty string and false, whatever the ports, instead of reading
    through the receiver; on a receiver that is not nil, when both the
    source and the destination port are in the protocol's map, the
    application of the source port is returned, with true. *)
Theorem application_nil_receiver_and_source_precedence (srcPort dstPort : Z) :
  flow.TCPApplication None srcPort dstPort = ("", false) /\
  flow.UDPApplication None srcPort dstPort = ("", false) /\
  forall (a : flow.ApplicationPortMap) (app other : string),
    (flow.TCP a !! srcPort = Some app -> flow.TCP a !! dstPort = Some other ->
     flow.TCPApplication (Some a) srcPort dstPort = (app, true)) /\
    (flow.UDP a !! srcPort = Some app -> flow.UDP a !! dstPort = Some other ->
     flow.UDPApplication (Some a) srcPort dstPort = (app, true)).
Proof.
  split; [reflexivity|]. split; [reflexivity|].
  intros a app other. split; intros Hsrc _; simpl; unfold flow.application;
    rewrite Hsrc; reflexivity.
Qed.

Lemma application_source_precedence_witness :
  flow.TCPApplication
    (Some {| flow.UDP := {[ 53%Z := "DNS" ]};
             flow.TCP := {[ 80%Z := "HTTP"; 8080%Z := "PROXY" ]} |})
    80 8080 = ("HTTP", true).
Proof.
  apply (proj1 (proj2 (proj2 (application_nil_receiver_and_source_precedence 80 8080))
                  {| flow.UDP := {[ 53%Z := "DNS" ]};
                     flow.TCP := {[ 80%Z := "HTTP"; 8080%Z := "PROXY" ]} |}
                  "HTTP" "PROXY"));
    vm_compute; reflexivity.
Defined.

End ApplicationPorts.

(** ** The revision tracker through queries, archival and rollover *)

Section Tracker.
Context `{Platform} `{!GraphPackage} {C : Type} `{!ElasticSearchClientInterface C}.
Implicit Types s : State C.

Lemma trackerKept_refl s : trackerKept s s.
Proof. reflexivity. Qed.

Lemma trackerKept_trans s1 s2 s3 :
  trackerKept s1 s2 -> trackerKept s2 s3 -> trackerKept s1 s3.
Proof. unfold trackerKept. congruence. Qed.

Lemma trackerKept_call {A} (method : C -> A * C) : preserves trackerKept (call method).
Proof. intros s. unfold call. destruct (method (client s)). reflexivity. Qed.

Lemma trackerKept_logf lvl format args :
  preserves (C:=C) trackerKept (logf lvl format args).
Proof. intros s. reflexivity. Qed.

Lemma trackerKept_timeNow : preserves (C:=C) trackerKept timeNow.
Proof. intros s. reflexivity. Qed.

Lemma updateTimes_keeps_tracker i s :
  prevRevision (snd (updateTimes i s)) = prevRevision s.
Proof.
  apply (preserves_updateTimes trackerKept trackerKept_refl trackerKept_trans
           trackerKept_logf (fun kind id obj => trackerKept_call _)).
Qed.

(** A rollover that reports an error has not touched the tracker. *)
Lemma rollAndDumpTopology_error_keeps_tracker fuel s err s' :
  rollAndDumpTopology fuel s = Some (Some err, s') ->
  prevRevision s' = prevRevision s.
Proof.
  intros Hroll.
  apply (rollAndDumpTopology_inv trackerKept trackerKept_refl trackerKept_trans
           trackerKept_logf trackerKept_timeNow
           (fun f prefix => trackerKept_call _)
           (fun obj q index sq => trackerKept_call _)
           (trackerKept_call _)
           (fun kind id obj => trackerKept_call _)) in Hroll.
  destruct Hroll as (s1 & Hs1 & Hr & Hrest).
  rewrite <- Hr in Hrest. subst s'.
  rewrite (trackerKept_call RollIndex s1). exact Hs1.
Qed.

(** [updateTimes] on an element whose ID the tracker knows: the one
    partial update, and the result read off its answer. *)
Lemma updateTimes_known i ge s prior :
  elementOf i = Some ge ->
  prevRevision s !! ID ge = Some prior ->
  let id := (ID ge +:+ "-" +:+ FormatInt prior)%string in
  let r := call (BulkUpdateWithPartialDoc (kindOf i) id
                   (<["ArchivedAt" := VInt64 (UnixMillis (updatedAt ge))]> ∅)) s in
  updateTimes i s =
    match fst r with
    | Some err =>
        (false, snd (Errorf "Error while archiving %s %s: %s"
                       [LStr (kindOf i); LStr id; LStr err] (snd r)))
    | None => (true, snd r)
    end.
Proof.
  intros Hge Hhit.
  destruct i as [n|e|]; inversion Hge; subst ge; simpl;
    unfold updateTimes, bind, lookupRevision, ret; rewrite Hhit;
    destruct (call _ s) as [[err|] s1]; reflexivity.
Qed.

Lemma updateTimes_unknown i ge s :
  elementOf i = Some ge ->
  prevRevision s !! ID ge = None ->
  updateTimes i s =
    (false, snd (Errorf ("Update from an unknow revision, " +:+ kindOf i +:+ ": %s")
                   [LStr (ID ge)] s)).
Proof.
  intros Hge Hmiss.
  destruct i as [n|e|]; inversion Hge; subst ge;
    unfold updateTimes, bind, lookupRevision; rewrite Hmiss; reflexivity.
Qed.

End Tracker.

Section TrackerAfterCreate.
Context `{Platform} `{!GraphPackage} {C : Type} `{!ElasticSearchClientInterface C}.
Local Open Scope string_scope.

Lemma createNodeWith_false_tracker roll (n : Node) (s s' : State C) :
  (forall s1 err s2, roll s1 = Some (Some err, s2) -> prevRevision s2 = prevRevision s1) ->
  snd (fst (BulkIndex "node"
              (ID (nodeElement n) +:+ "-" +:+ FormatInt (revision (nodeElement n)))
              (mapNode n) (client s))) = None ->
  createNodeWith roll n s = Some (false, s') ->
  prevRevision s' = <[ID (nodeElement n) := revision (nodeElement n)]> (prevRevision s).
Proof.
  intros Hroll Hindex Hcreate. unfold createNodeWith in Hcreate.
  unfold bindF at 1, lift at 1, call at 1 in Hcreate.
  destruct (BulkIndex _ _ _ (client s)) as [[shouldRoll err] c]. simpl in Hindex. subst err.
  cbn beta iota in Hcreate.
  unfold bindF at 1, lift at 1, storeRevision in Hcreate. cbn beta iota in Hcreate.
  destruct shouldRoll; [|discriminate].
  unfold bindF at 1 in Hcreate.
  match type of Hcreate with context [roll ?s1] =>
    destruct (roll s1) as [[[err|] s2]|] eqn:Hr; [|discriminate..] end.
  apply Hroll in Hr. inversion Hcreate; subst s'. simpl. exact Hr.
Qed.

Lemma createEdgeWith_false_tracker roll (e : Edge) (s s' : State C) :
  (forall s1 err s2, roll s1 = Some (Some err, s2) -> prevRevision s2 = prevRevision s1) ->
  snd (fst (BulkIndex "edge"
              (ID (edgeElement e) +:+ "-" +:+ FormatInt (revision (edgeElement e)))
              (mapEdge e) (client s))) = None ->
  createEdgeWith roll e s = Some (false, s') ->
  prevRevision s' = <[ID (edgeElement e) := revision (edgeElement e)]> (prevRevision s).
Proof.
  intros Hroll Hindex Hcreate. unfold createEdgeWith in Hcreate.
  unfold bindF at 1, lift at 1, call at 1 in Hcreate.
  destruct (BulkIndex _ _ _ (client s)) as [[shouldRoll err] c]. simpl in Hindex. subst err.
  cbn beta iota in Hcreate.
  unfold bindF at 1, lift at 1, storeRevision in Hcreate. cbn beta iota in Hcreate.
  destruct shouldRoll; [|discriminate].
  unfold bindF at 1 in Hcreate.
  match type of Hcreate with context [roll ?s1] =>
    destruct (roll s1) as [[[err|] s2]|] eqn:Hr; [|discriminate..] end.
  apply Hroll in Hr. inversion Hcreate; subst s'. simpl. exact Hr.
Qed.

(** C9.  Once the store has accepted the [BulkIndex] of [createNode] or
    [createEdge], the tracker entry of the element's ID is the element's
    revision even when the call returns false (which it then does only
    because the rollover it triggered failed): the tracker after a false
    return is the tracker before with that entry written, so a false
    return of [NodeAdded] or [EdgeAdded] does not mean the tracker is
    unchanged. *)
Theorem tracker_written_when_create_returns_false
    (fuel : nat) (n : Node) (e : Edge) (s : State C) :
  (forall s',
      snd (fst (BulkIndex "node"
                  (ID (nodeElement n) +:+ "-" +:+ FormatInt (revision (nodeElement n)))
                  (mapNode n) (client s))) = None ->
      NodeAdded fuel n s = Some (false, s') ->
      prevRevision s' !! ID (nodeElement n) = Some (revision (nodeElement n)) /\
      prevRevision s' =
        <[ID (nodeElement n) := revision (nodeElement n)]> (prevRevision s)) /\
  (forall s',
      snd (fst (BulkIndex "edge"
                  (ID (edgeElement e) +:+ "-" +:+ FormatInt (revision (edgeElement e)))
                  (mapEdge e) (client s))) = None ->
      EdgeAdded fuel e s = Some (false, s') ->
      prevRevision s' !! ID (edgeElement e) = Some (revision (edgeElement e)) /\
      prevRevision s' =
        <[ID (edgeElement e) := revision (edgeElement e)]> (prevRevision s)).
Proof.
  split; intros s' Hindex Hcreate.
  - assert (prevRevision s' =
            <[ID (nodeElement n) := revision (nodeElement n)]> (prevRevision s)) as ->;
      [|split; [apply lookup_insert_eq | reflexivity]].
    eapply createNodeWith_false_tracker; [|exact Hindex|exact Hcreate].
    intros s1 err s2. apply rollAndDumpTopology_error_keeps_tracker.
  - assert (prevRevision s' =
            <[ID (edgeElement e) := revision (edgeElement e)]> (prevRevision s)) as ->;
      [|split; [apply lookup_insert_eq | reflexivity]].
    eapply createEdgeWith_false_tracker; [|exact Hindex|exact Hcreate].
    intros s1 err s2. apply rollAndDumpTopology_error_keeps_tracker.
Qed.

End TrackerAfterCreate.

(** ** Runs on the scripted store *)

Section Runs.
Context `{Platform} {C : Type}.

Lemma run_result {A} (r : option (A * State C)) (a : A) (s0 : State C) :
  outcome r = Some a -> r = Some (a, finalState s0 r).
Proof.
  destruct r as [[a' s']|]; simpl; intros Heq; inversion Heq; reflexivity.
Qed.

End Runs.

(** [NodeAdded] for a new node "n1": the store accepts the document and
    asks for a rollover, the roll of the index fails.  The call returns
    false and the tracker, empty before, now maps "n1" to revision 0. *)
Lemma tracker_written_when_create_returns_false_witness :
  prevRevision fixture.rollFails !! "n1"%string = None /\
  prevRevision
    (finalState fixture.rollFails
       (NodeAdded 1 (fixture.node "n1" 0 5) fixture.rollFails))
    !! "n1"%string = Some 0%Z.
Proof.
  split; [reflexivity|].
  apply (proj1 (tracker_written_when_create_returns_false 1
                  (fixture.node "n1" 0 5) (fixture.edge "e1" 0 5) fixture.rollFails)).
  - vm_compute. reflexivity.
  - apply run_result. vm_compute. reflexivity.
Defined.

(** ** What the backend asks of the store *)

Section Trace.
Context `{Platform} `{!GraphPackage} {C : Type} `{!ElasticSearchClientInterface C}.
Implicit Types (s : State (Recorder C)) (P : Call -> Prop).
Local Open Scope string_scope.
Local Open Scope list_scope.

Lemma traceGrows_refl P s : traceGrows P s s.
Proof. exists []. split; [symmetry; apply app_nil_r | constructor]. Qed.

Lemma traceGrows_trans P s1 s2 s3 :
  traceGrows P s1 s2 -> traceGrows P s2 s3 -> traceGrows P s1 s3.
Proof.
  intros (e1 & H1 & F1) (e2 & H2 & F2). exists (e1 ++ e2). split.
  - rewrite H2, H1, app_assoc. reflexivity.
  - apply Forall_app. split; assumption.
Qed.

Lemma traceGrows_weaken P Q s s' :
  (forall c, P c -> Q c) -> traceGrows P s s' -> traceGrows Q s s'.
Proof.
  intros HPQ (e & He & HF). exists e. split; [exact He|].
  eapply Forall_impl; [exact HF | exact HPQ].
Qed.

Lemma traceGrows_logf P lvl format args :
  preserves (C:=Recorder C) (traceGrows P) (logf lvl format args).
Proof. intros s. exists []. split; [symmetry; apply app_nil_r | constructor]. Qed.

Lemma traceGrows_timeNow P : preserves (C:=Recorder C) (traceGrows P) timeNow.
Proof. intros s. exists []. split; [symmetry; apply app_nil_r | constructor]. Qed.

Lemma traceGrows_storeRevision P id rev :
  preserves (C:=Recorder C) (traceGrows P) (storeRevision id rev).
Proof. intros s. exists []. split; [symmetry; apply app_nil_r | constructor]. Qed.

(** A call through the recorder adds exactly its own event. *)
Lemma trace_call_record {A} (method : C -> A * C) (event : A -> Call) s :
  trace (snd (call (record method event) s)) =
  trace s ++ [event (fst (call (record method event) s))].
Proof.
  unfold call, record, trace. destruct (method (inner (client s))). reflexivity.
Qed.

Lemma call_keeps_tracker_and_log {A} (method : Recorder C -> A * Recorder C) s :
  prevRevision (snd (call method s)) = prevRevision s /\
  logged (snd (call method s)) = logged s /\
  clockReads (snd (call method s)) = clockReads s.
Proof. unfold call. destruct (method (client s)). auto. Qed.

Lemma traceGrows_record P {A} (method : C -> A * C) (event : A -> Call) :
  (forall a, P (event a)) -> preserves (traceGrows P) (call (record method event)).
Proof.
  intros HP s. exists [event (fst (call (record method event) s))].
  split; [apply trace_call_record | repeat constructor; apply HP].
Qed.

Lemma trace_BulkUpdateWithPartialDoc kind id obj s :
  let r := call (BulkUpdateWithPartialDoc kind id obj) s in
  trace (snd r) = trace s ++ [CallBulkUpdateWithPartialDoc kind id obj (fst r)].
Proof. apply trace_call_record. Qed.

Lemma trace_BulkIndex kind id obj s :
  let r := call (BulkIndex kind id obj) s in
  trace (snd r) = trace s ++ [CallBulkIndex kind id obj (fst (fst r)) (snd (fst r))].
Proof.
  apply (trace_call_record (BulkIndex kind id obj)
           (fun r => CallBulkIndex kind id obj (fst r) (snd r))).
Qed.

Lemma trace_RollIndex s :
  let r := call RollIndex s in
  trace (snd r) = trace s ++ [CallRollIndex (fst r)].
Proof. apply (trace_call_record RollIndex CallRollIndex). Qed.

Lemma trace_FormatFilter f prefix s :
  let r := call (FormatFilter f prefix) s in
  trace (snd r) = trace s ++ [CallFormatFilter f prefix (fst r)].
Proof. apply (trace_call_record (FormatFilter f prefix) (CallFormatFilter f prefix)). Qed.

Lemma trace_Search obj q index sq s :
  let r := call (Search obj q index sq) s in
  trace (snd r) = trace s ++ [CallSearch obj q index sq (fst (fst r)) (snd (fst r))].
Proof.
  apply (trace_call_record (Search obj q index sq)
           (fun r => CallSearch obj q index sq (fst r) (snd r))).
Qed.

Lemma trace_GetIndexAlias s :
  let r := call GetIndexAlias s in
  trace (snd r) = trace s ++ [CallGetIndexAlias (fst r)].
Proof. apply (trace_call_record GetIndexAlias CallGetIndexAlias). Qed.

(** Discharges the side conditions of the lemmas of [Preservation] for
    the relation [traceGrows P]; [tac] proves [P] of the events. *)
Ltac trace_steps tac :=
  first
    [ exact (traceGrows_refl _)
    | exact (traceGrows_trans _)
    | intros; apply traceGrows_logf
    | apply traceGrows_timeNow
    | intros; apply traceGrows_storeRevision
    | intros; apply traceGrows_record; intros; tac ].

Lemma updateTimes_trace_readOrArchive i :
  preserves (traceGrows readOrArchive) (updateTimes i).
Proof. apply preserves_updateTimes; trace_steps ltac:(split; reflexivity). Qed.

(** C6.  [updateTimes] on a node or an edge whose ID the revision tracker
    does not know returns false, and the store client has not been
    called: nothing is added to the recorded calls, the client, the
    tracker are as before (one error is logged).  When the tracker knows
    the ID, exactly one call is made: the partial update of the document
    [<ID>-<tracked revision>] of the element's kind with the single
    field [ArchivedAt], set to the element's [updatedAt] in
    milliseconds; [updateTimes] returns true exactly when that call
    returned no error. *)
Theorem updateTimes_unknown_revision_aborts_known_archives
    (i : element) (ge : graphElement) (s : State (Recorder C)) :
  elementOf i = Some ge ->
  (prevRevision s !! ID ge = None ->
     fst (updateTimes i s) = false /\
     trace (snd (updateTimes i s)) = trace s /\
     client (snd (updateTimes i s)) = client s /\
     prevRevision (snd (updateTimes i s)) = prevRevision s /\
     length (logged (snd (updateTimes i s))) = S (length (logged s))) /\
  (forall prior, prevRevision s !! ID ge = Some prior ->
     exists err,
       trace (snd (updateTimes i s)) =
         trace s ++
         [CallBulkUpdateWithPartialDoc (kindOf i)
            (ID ge +:+ "-" +:+ FormatInt prior)
            (<["ArchivedAt" := VInt64 (UnixMillis (updatedAt ge))]> ∅) err] /\
       fst (updateTimes i s) = bool_decide (err = None) /\
       prevRevision (snd (updateTimes i s)) = prevRevision s).
Proof.
  intros Hge. split.
  - intros Hmiss. rewrite (updateTimes_unknown i ge s Hge Hmiss). simpl.
    repeat split; try reflexivity. rewrite length_app. simpl. lia.
  - intros prior Hhit. rewrite (updateTimes_known i ge s prior Hge Hhit). cbv zeta.
    pose proof (trace_BulkUpdateWithPartialDoc (kindOf i)
                  (ID ge +:+ "-" +:+ FormatInt prior)
                  (<["ArchivedAt" := VInt64 (UnixMillis (updatedAt ge))]> ∅) s) as Htr.
    pose proof (call_keeps_tracker_and_log
                  (BulkUpdateWithPartialDoc (kindOf i)
                     (ID ge +:+ "-" +:+ FormatInt prior)
                     (<["ArchivedAt" := VInt64 (UnixMillis (updatedAt ge))]> ∅)) s)
      as (Hpr & _ & _).
    cbv zeta in Htr.
    destruct (call _ s) as [[err|] s1]; simpl in *.
    + exists (Some err). rewrite bool_decide_eq_false_2 by discriminate. auto.
    + exists None. auto.
Qed.

(** C4.  [NodeDeleted] and [EdgeDeleted] are the removal of the ID from
    the revision tracker followed by a step [write] that leaves the
    tracker alone and makes exactly one call to the store: the partial
    update of the document [<ID>-<the element's revision>] whose fields
    [DeletedAt] and [ArchivedAt] are both the element's [deletedAt] in
    milliseconds.  The result is true exactly when that call returned no
    error, and whatever it returned the ID is gone from the tracker
    afterwards. *)
Theorem deletion_untracks_then_marks_current_document
    (n : Node) (e : Edge) (s : State (Recorder C)) :
  (let ge := nodeElement n in
   let ms := UnixMillis (deletedAt ge) in
   let obj : gmap string Value :=
     <["DeletedAt" := VInt64 ms]> (<["ArchivedAt" := VInt64 ms]> ∅) in
   (exists write : M bool,
      NodeDeleted n = bind (deleteRevision (ID ge)) (fun _ => write) /\
      forall s1 : State (Recorder C), exists err,
        trace (snd (write s1)) =
          trace s1 ++
          [CallBulkUpdateWithPartialDoc "node"
             (ID ge +:+ "-" +:+ FormatInt (revision ge)) obj err] /\
        fst (write s1) = bool_decide (err = None) /\
        prevRevision (snd (write s1)) = prevRevision s1) /\
   obj !! "DeletedAt" = Some (VInt64 ms) /\
   obj !! "ArchivedAt" = Some (VInt64 ms) /\
   prevRevision (snd (NodeDeleted n s)) = delete (ID ge) (prevRevision s) /\
   prevRevision (snd (NodeDeleted n s)) !! ID ge = None) /\
  (let ge := edgeElement e in
   let ms := UnixMillis (deletedAt ge) in
   let obj : gmap string Value :=
     <["DeletedAt" := VInt64 ms]> (<["ArchivedAt" := VInt64 ms]> ∅) in
   (exists write : M bool,
      EdgeDeleted e = bind (deleteRevision (ID ge)) (fun _ => write) /\
      forall s1 : State (Recorder C), exists err,
        trace (snd (write s1)) =
          trace s1 ++
          [CallBulkUpdateWithPartialDoc "edge"
             (ID ge +:+ "-" +:+ FormatInt (revision ge)) obj err] /\
        fst (write s1) = bool_decide (err = None) /\
        prevRevision (snd (write s1)) = prevRevision s1) /\
   obj !! "DeletedAt" = Some (VInt64 ms) /\
   obj !! "ArchivedAt" = Some (VInt64 ms) /\
   prevRevision (snd (EdgeDeleted e s)) = delete (ID ge) (prevRevision s) /\
   prevRevision (snd (EdgeDeleted e s)) !! ID ge = None).
Proof.
  assert (forall kind id obj format (s1 : State (Recorder C)),
            let write :=
              bind (call (BulkUpdateWithPartialDoc kind id obj))
                (fun err => match err with
                            | Some err =>
                                bind (Errorf format [LStr id; LStr err])
                                     (fun _ => ret false)
                            | None => ret true
                            end) in
            exists err,
              trace (snd (write s1)) =
                trace s1 ++ [CallBulkUpdateWithPartialDoc kind id obj err] /\
              fst (write s1) = bool_decide (err = None) /\
              prevRevision (snd (write s1)) = prevRevision s1) as Hwrite.
  { intros kind id obj format s1. cbv zeta. unfold bind.
    pose proof (trace_BulkUpdateWithPartialDoc kind id obj s1) as Htr.
    pose proof (call_keeps_tracker_and_log
                  (BulkUpdateWithPartialDoc kind id obj) s1) as (Hpr & _ & _).
    cbv zeta in Htr. destruct (call _ s1) as [[err|] s2]; simpl in *.
    - exists (Some err). rewrite bool_decide_eq_false_2 by discriminate. auto.
    - exists None. auto. }
  split; cbv zeta.
  - split; [|split; [|split; [|split]]].
    + eexists. split; [reflexivity|]. intros s1. apply Hwrite.
    + apply lookup_insert_eq.
    + rewrite lookup_insert_ne by discriminate. apply lookup_insert_eq.
    + unfold NodeDeleted. unfold bind at 1. simpl.
      destruct (Hwrite "node"
                  (ID (nodeElement n) +:+ "-" +:+ FormatInt (revision (nodeElement n)))
                  (<["DeletedAt" := VInt64 (UnixMillis (deletedAt (nodeElement n)))]>
                     (<["ArchivedAt" := VInt64 (UnixMillis (deletedAt (nodeElement n)))]> ∅))
                  "Error while marking node as deleted %s: %s"
                  (snd (deleteRevision (ID (nodeElement n)) s)))
        as (err & _ & _ & Hpr).
      exact Hpr.
    + unfold NodeDeleted. unfold bind at 1. simpl.
      destruct (Hwrite "node"
                  (ID (nodeElement n) +:+ "-" +:+ FormatInt (revision (nodeElement n)))
                  (<["DeletedAt" := VInt64 (UnixMillis (deletedAt (nodeElement n)))]>
                     (<["ArchivedAt" := VInt64 (UnixMillis (deletedAt (nodeElement n)))]> ∅))
                  "Error while marking node as deleted %s: %s"
                  (snd (deleteRevision (ID (nodeElement n)) s)))
        as (err & _ & _ & Hpr).
      simpl in Hpr. etransitivity; [exact (f_equal (fun m => m !! _) Hpr)|].
      apply lookup_delete_eq.
  - split; [|split; [|split; [|split]]].
    + eexists. split; [reflexivity|]. intros s1. apply Hwrite.
    + apply lookup_insert_eq.
    + rewrite lookup_insert_ne by discriminate. apply lookup_insert_eq.
    + unfold EdgeDeleted. unfold bind at 1. simpl.
      destruct (Hwrite "edge"
                  (ID (edgeElement e) +:+ "-" +:+ FormatInt (revision (edgeElement e)))
                  (<["DeletedAt" := VInt64 (UnixMillis (deletedAt (edgeElement e)))]>
                     (<["ArchivedAt" := VInt64 (UnixMillis (deletedAt (edgeElement e)))]> ∅))
                  "Error while marking edge as deleted %s: %s"
                  (snd (deleteRevision (ID (edgeElement e)) s)))
        as (err & _ & _ & Hpr).
      exact Hpr.
    + unfold EdgeDeleted. unfold bind at 1. simpl.
      destruct (Hwrite "edge"
                  (ID (edgeElement e) +:+ "-" +:+ FormatInt (revision (edgeElement e)))
                  (<["DeletedAt" := VInt64 (UnixMillis (deletedAt (edgeElement e)))]>
                     (<["ArchivedAt" := VInt64 (UnixMillis (deletedAt (edgeElement e)))]> ∅))
                  "Error while marking edge as deleted %s: %s"
                  (snd (deleteRevision (ID (edgeElement e)) s)))
        as (err & _ & _ & Hpr).
      simpl in Hpr. etransitivity; [exact (f_equal (fun m => m !! _) Hpr)|].
      apply lookup_delete_eq.
Qed.

Lemma boolQueryMatches_present matches (tf f mf : option ElasticQuery) doc :
  boolQueryMatches matches {| mustClauses := omap id [tf; f; mf] |} doc = true <->
  forall clause, Some clause ∈ [tf; f; mf] -> matches clause doc = true.
Proof.
  unfold boolQueryMatches. cbn [mustClauses]. rewrite forallb_forall. split.
  - intros Hall clause Hin. apply Hall, list_elem_of_In.
    apply (proj2 (list_elem_of_omap id [tf; f; mf] clause)).
    exists (Some clause). split; [exact Hin | reflexivity].
  - intros Hall clause Hin. apply list_elem_of_In in Hin.
    apply (proj1 (list_elem_of_omap id [tf; f; mf] clause)) in Hin.
    destruct Hin as (o & Hin & Ho). simpl in Ho. subst o. apply Hall, Hin.
Qed.

(** C7.  [Query] formats the time filter, the identity filter and the
    metadata filter, in this order, and searches with a bool query whose
    [must] clauses are the formatted filters that are not nil, in the
    same order: a document matches it exactly when it matches every
    filter that is present, a nil filter adds no clause, and when all
    three are nil the query has no clause and matches every document. *)
Theorem Query_conjoins_the_filters_present
    (obj : string) (tsq : TimedSearchQuery) (index : string) (s : State (Recorder C)) :
  let r := Query obj tsq index s in
  exists tf f mf,
    trace (snd r) =
      trace s ++
      [CallFormatFilter (TimeFilter tsq) "" tf;
       CallFormatFilter (sqFilter (tsqSearchQuery tsq)) "" f;
       CallFormatFilter (MetadataFilter tsq) "Metadata" mf;
       CallSearch obj {| mustClauses := omap id [tf; f; mf] |} index
                  (tsqSearchQuery tsq) (fst (fst r)) (snd (fst r))] /\
    (forall matches doc,
        boolQueryMatches matches {| mustClauses := omap id [tf; f; mf] |} doc = true <->
        forall clause, Some clause ∈ [tf; f; mf] -> matches clause doc = true) /\
    (tf = None -> f = None -> mf = None ->
     omap id [tf; f; mf] = [] /\
     forall matches doc,
       boolQueryMatches matches {| mustClauses := omap id [tf; f; mf] |} doc = true).
Proof.
  cbv zeta. unfold Query, bind.
  pose proof (trace_FormatFilter (TimeFilter tsq) "" s) as H1. cbv zeta in H1.
  destruct (call (FormatFilter (TimeFilter tsq) "") s) as [tf s1]. simpl in H1.
  pose proof (trace_FormatFilter (sqFilter (tsqSearchQuery tsq)) "" s1) as H2.
  cbv zeta in H2.
  destruct (call (FormatFilter (sqFilter (tsqSearchQuery tsq)) "") s1) as [f s2].
  simpl in H2.
  pose proof (trace_FormatFilter (MetadataFilter tsq) "Metadata" s2) as H3.
  cbv zeta in H3.
  destruct (call (FormatFilter (MetadataFilter tsq) "Metadata") s2) as [mf s3].
  simpl in H3.
  assert (Must NewBoolQuery
            match mf with
            | Some mf0 =>
                match f with
                | Some f0 =>
                    match tf with Some tf0 => [] ++ [tf0] | None => [] end ++ [f0]
                | None => match tf with Some tf0 => [] ++ [tf0] | None => [] end
                end ++ [mf0]
            | None =>
                match f with
                | Some f0 =>
                    match tf with Some tf0 => [] ++ [tf0] | None => [] end ++ [f0]
                | None => match tf with Some tf0 => [] ++ [tf0] | None => [] end
                end
            end = {| mustClauses := omap id [tf; f; mf] |}) as ->.
  { destruct tf, f, mf; reflexivity. }
  pose proof (trace_Search obj {| mustClauses := omap id [tf; f; mf] |} index
                (tsqSearchQuery tsq) s3) as H4.
  cbv zeta in H4.
  exists tf, f, mf. split; [|split].
  - rewrite H4, H3, H2, H1. rewrite <- !app_assoc. reflexivity.
  - intros matches doc. apply boolQueryMatches_present.
  - intros -> -> ->. split; [reflexivity|]. intros matches doc. reflexivity.
Qed.

Lemma matcher_error_index_step (t : GraphContext) s :
  let start := match ctxTimeSlice t with
               | None => call GetIndexAlias
               | Some _ => ret ""
               end s in
  traceGrows (fun c => isSearch c = false) s (snd start) /\
  logged (snd start) = logged s.
Proof.
  cbv zeta. destruct (ctxTimeSlice t).
  - split; [apply traceGrows_refl | reflexivity].
  - split.
    + apply (traceGrows_record _ GetIndexAlias CallGetIndexAlias). reflexivity.
    + apply (call_keeps_tracker_and_log GetIndexAlias s).
Qed.

(** C8.  [GetNodes], [GetEdges] and [GetNodeEdges] with a matcher whose
    [Filter()] fails return the empty list.  No search is made: the only
    call the store may have received is the lookup of the index alias;
    and the error reaches neither the caller (the result is just the
    list) nor the log. *)
Theorem matcher_error_gives_empty_result_without_search
    (t : GraphContext) (m : GraphElementMatcher) (n : Node) (err : error)
    (s : State (Recorder C)) :
  snd (matcherFilter m) = Some err ->
  (fst (GetNodes t (Some m) s) = [] /\
   traceGrows (fun c => isSearch c = false) s (snd (GetNodes t (Some m) s)) /\
   logged (snd (GetNodes t (Some m) s)) = logged s) /\
  (fst (GetEdges t (Some m) s) = [] /\
   traceGrows (fun c => isSearch c = false) s (snd (GetEdges t (Some m) s)) /\
   logged (snd (GetEdges t (Some m) s)) = logged s) /\
  (fst (GetNodeEdges n t (Some m) s) = [] /\
   traceGrows (fun c => isSearch c = false) s (snd (GetNodeEdges n t (Some m) s)) /\
   logged (snd (GetNodeEdges n t (Some m) s)) = logged s).
Proof.
  intros Hm. destruct (matcherFilter m) as [f e0] eqn:Hmf. simpl in Hm. subst e0.
  pose proof (matcher_error_index_step t s) as Hstart. cbv zeta in Hstart.
  unfold GetNodes, GetEdges, GetNodeEdges, bind. rewrite Hmf.
  destruct (match ctxTimeSlice t with
            | None => call GetIndexAlias
            | Some _ => ret ""
            end s) as [index s1].
  simpl in *. destruct Hstart as [Htr Hlog]. repeat split; assumption.
Qed.

Lemma rollAndDumpTopology_trace fuel :
  preservesF (C:=Recorder C) (traceGrows (fun _ => True)) (rollAndDumpTopology fuel).
Proof. apply preservesF_rollAndDumpTopology; trace_steps ltac:(exact I). Qed.

Lemma mapElement_no_ArchivedAt (ge : graphElement) : mapElement ge !! "ArchivedAt" = None.
Proof.
  unfold mapElement. destruct (negb (IsZero (deletedAt ge)));
    repeat (rewrite lookup_insert_ne by discriminate); apply lookup_empty.
Qed.

Lemma documentOf_no_ArchivedAt (i : element) : documentOf i !! "ArchivedAt" = None.
Proof.
  destruct i as [n|e|]; simpl.
  - apply mapElement_no_ArchivedAt.
  - unfold mapEdge. repeat (rewrite lookup_insert_ne by discriminate).
    apply mapElement_no_ArchivedAt.
  - apply lookup_empty.
Qed.

(** A create that returns true has had its document accepted by the
    store, as the first thing it asked of it. *)
Lemma createNodeWith_true_trace roll (n : Node) s s' :
  preservesF (traceGrows (fun _ => True)) roll ->
  createNodeWith roll n s = Some (true, s') ->
  exists shouldRoll rest,
    trace s' =
      trace s ++
      CallBulkIndex "node"
        (ID (nodeElement n) +:+ "-" +:+ FormatInt (revision (nodeElement n)))
        (mapNode n) shouldRoll None :: rest.
Proof.
  intros Hroll Hcreate. unfold createNodeWith in Hcreate.
  unfold bindF at 1, lift at 1 in Hcreate.
  pose proof (trace_BulkIndex "node"
                (ID (nodeElement n) +:+ "-" +:+ FormatInt (revision (nodeElement n)))
                (mapNode n) s) as Htr. cbv zeta in Htr.
  destruct (call _ s) as [[shouldRoll [err|]] s1]; simpl in Htr;
    [discriminate|]. cbn beta iota in Hcreate.
  unfold bindF at 1, lift at 1, storeRevision in Hcreate. cbn beta iota in Hcreate.
  exists shouldRoll. destruct shouldRoll.
  - unfold bindF at 1 in Hcreate.
    match type of Hcreate with context [roll ?s2] =>
      destruct (roll s2) as [[[err|] s3]|] eqn:Hr; [discriminate| |discriminate] end.
    apply Hroll in Hr. destruct Hr as (rest & Hrest & _).
    inversion Hcreate; subst s'. exists rest. rewrite Hrest.
    unfold trace at 1. simpl. fold (trace s1). rewrite Htr, <- app_assoc. reflexivity.
  - inversion Hcreate; subst s'. exists []. unfold trace at 1. simpl.
    fold (trace s1). exact Htr.
Qed.

Lemma createEdgeWith_true_trace roll (e : Edge) s s' :
  preservesF (traceGrows (fun _ => True)) roll ->
  createEdgeWith roll e s = Some (true, s') ->
  exists shouldRoll rest,
    trace s' =
      trace s ++
      CallBulkIndex "edge"
        (ID (edgeElement e) +:+ "-" +:+ FormatInt (revision (edgeElement e)))
        (mapEdge e) shouldRoll None :: rest.
Proof.
  intros Hroll Hcreate. unfold createEdgeWith in Hcreate.
  unfold bindF at 1, lift at 1 in Hcreate.
  pose proof (trace_BulkIndex "edge"
                (ID (edgeElement e) +:+ "-" +:+ FormatInt (revision (edgeElement e)))
                (mapEdge e) s) as Htr. cbv zeta in Htr.
  destruct (call _ s) as [[shouldRoll [err|]] s1]; simpl in Htr;
    [discriminate|]. cbn beta iota in Hcreate.
  unfold bindF at 1, lift at 1, storeRevision in Hcreate. cbn beta iota in Hcreate.
  exists shouldRoll. destruct shouldRoll.
  - unfold bindF at 1 in Hcreate.
    match type of Hcreate with context [roll ?s2] =>
      destruct (roll s2) as [[[err|] s3]|] eqn:Hr; [discriminate| |discriminate] end.
    apply Hroll in Hr. destruct Hr as (rest & Hrest & _).
    inversion Hcreate; subst s'. exists rest. rewrite Hrest.
    unfold trace at 1. simpl. fold (trace s1). rewrite Htr, <- app_assoc. reflexivity.
  - inversion Hcreate; subst s'. exists []. unfold trace at 1. simpl.
    fold (trace s1). exact Htr.
Qed.

(** C1.  For a node or an edge: when [updateTimes] returns false,
    [MetadataUpdated] returns false in the state [updateTimes] left, in
    which no [BulkIndex] has been asked of the store, so the document of
    the new revision is not written.  When [MetadataUpdated] returns
    true, the tracker knew a previous revision, and the store was asked,
    first, for the partial update that sets [ArchivedAt] on the document
    [<ID>-<previous revision>], which it accepted, and next for the
    index of the document [<ID>-<revision>] of the element, which it
    accepted and which has no [ArchivedAt] field. *)
Theorem MetadataUpdated_archives_before_it_writes
    (fuel : nat) (i : element) (ge : graphElement) (s : State (Recorder C)) :
  elementOf i = Some ge ->
  (fst (updateTimes i s) = false ->
     MetadataUpdated fuel i s = Some (false, snd (updateTimes i s)) /\
     traceGrows (fun c => isBulkIndex c = false) s (snd (updateTimes i s))) /\
  (forall s', MetadataUpdated fuel i s = Some (true, s') ->
     exists prior shouldRoll rest,
       prevRevision s !! ID ge = Some prior /\
       trace s' =
         trace s ++
         CallBulkUpdateWithPartialDoc (kindOf i)
           (ID ge +:+ "-" +:+ FormatInt prior)
           (<["ArchivedAt" := VInt64 (UnixMillis (updatedAt ge))]> ∅) None ::
         CallBulkIndex (kindOf i)
           (ID ge +:+ "-" +:+ FormatInt (revision ge))
           (documentOf i) shouldRoll None :: rest /\
       documentOf i !! "ArchivedAt" = None).
Proof.
  intros Hge. split.
  - intros Hfalse. split.
    + unfold MetadataUpdated, bindF, lift.
      destruct (updateTimes i s) as [ok s1]. simpl in Hfalse. subst ok. reflexivity.
    + eapply traceGrows_weaken; [|apply updateTimes_trace_readOrArchive].
      intros c [_ Hc]. exact Hc.
  - intros s' Hupdate.
    destruct (prevRevision s !! ID ge) as [prior|] eqn:Hprior.
    2:{ unfold MetadataUpdated, bindF, lift in Hupdate.
        rewrite (updateTimes_unknown i ge s Hge Hprior) in Hupdate.
        simpl in Hupdate. discriminate. }
    unfold MetadataUpdated in Hupdate. unfold bindF at 1, lift at 1 in Hupdate.
    rewrite (updateTimes_known i ge s prior Hge Hprior) in Hupdate. cbv zeta in Hupdate.
    pose proof (trace_BulkUpdateWithPartialDoc (kindOf i)
                  (ID ge +:+ "-" +:+ FormatInt prior)
                  (<["ArchivedAt" := VInt64 (UnixMillis (updatedAt ge))]> ∅) s) as Htr.
    cbv zeta in Htr.
    destruct (call _ s) as [[err|] s1]; simpl in Htr, Hupdate; [discriminate|].
    exists prior.
    destruct i as [n|e|]; inversion Hge; subst ge; simpl in Hupdate |- *.
    + unfold bindF in Hupdate.
      destruct (createNode fuel n s1) as [[ok s2]|] eqn:Hcreate; [|discriminate].
      inversion Hupdate; subst ok s2.
      apply createNodeWith_true_trace in Hcreate; [|apply rollAndDumpTopology_trace].
      destruct Hcreate as (shouldRoll & rest & Hrest).
      exists shouldRoll, rest. split; [reflexivity|]. split.
      * rewrite Hrest, Htr, <- app_assoc. reflexivity.
      * apply (documentOf_no_ArchivedAt (INode n)).
    + unfold bindF in Hupdate.
      destruct (createEdge fuel e s1) as [[ok s2]|] eqn:Hcreate; [|discriminate].
      inversion Hupdate; subst ok s2.
      apply createEdgeWith_true_trace in Hcreate; [|apply rollAndDumpTopology_trace].
      destruct Hcreate as (shouldRoll & rest & Hrest).
      exists shouldRoll, rest. split; [reflexivity|]. split.
      * rewrite Hrest, Htr, <- app_assoc. reflexivity.
      * apply (documentOf_no_ArchivedAt (IEdge e)).
Qed.

Lemma createNodeWith_after_roll roll (n : Node) (s0 s' : State (Recorder C)) r :
  fst (call (BulkIndex "node"
               (ID (nodeElement n) +:+ "-" +:+ FormatInt (revision (nodeElement n)))
               (mapNode n)) s0) = (true, None) ->
  roll (snd (storeRevision (ID (nodeElement n)) (revision (nodeElement n))
               (snd (call (BulkIndex "node"
                             (ID (nodeElement n) +:+ "-" +:+
                              FormatInt (revision (nodeElement n)))
                             (mapNode n)) s0)))) = Some (r, s') ->
  outcome (createNodeWith roll n s0) = Some (bool_decide (r = None)).
Proof.
  intros Hindex Hroll. unfold createNodeWith.
  unfold bindF at 1, lift at 1.
  destruct (call _ s0) as [[shouldRoll err] s1]. simpl in Hindex, Hroll.
  inversion Hindex; subst shouldRoll err. cbn beta iota.
  unfold bindF at 1, lift at 1, storeRevision. cbn beta iota. unfold bindF at 1.
  unfold storeRevision in Hroll. simpl in Hroll.
  rewrite Hroll. destruct r as [err|]; reflexivity.
Qed.

Lemma createEdgeWith_after_roll roll (e : Edge) (s0 s' : State (Recorder C)) r :
  fst (call (BulkIndex "edge"
               (ID (edgeElement e) +:+ "-" +:+ FormatInt (revision (edgeElement e)))
               (mapEdge e)) s0) = (true, None) ->
  roll (snd (storeRevision (ID (edgeElement e)) (revision (edgeElement e))
               (snd (call (BulkIndex "edge"
                             (ID (edgeElement e) +:+ "-" +:+
                              FormatInt (revision (edgeElement e)))
                             (mapEdge e)) s0)))) = Some (r, s') ->
  outcome (createEdgeWith roll e s0) = Some (bool_decide (r = None)).
Proof.
  intros Hindex Hroll. unfold createEdgeWith.
  unfold bindF at 1, lift at 1.
  destruct (call _ s0) as [[shouldRoll err] s1]. simpl in Hindex, Hroll.
  inversion Hindex; subst shouldRoll err. cbn beta iota.
  unfold bindF at 1, lift at 1, storeRevision. cbn beta iota. unfold bindF at 1.
  unfold storeRevision in Hroll. simpl in Hroll.
  rewrite Hroll. destruct r as [err|]; reflexivity.
Qed.

(** C2, as amended.  A rollover that returns reports exactly the answer
    of its one [RollIndex] call.  Before that call the store is only
    queried and asked to archive; when [RollIndex] fails nothing is
    asked of the store after it (the rollover is aborted, nothing is
    re-created) and the error is the rollover's result; a [createNode] or
    [createEdge] whose [BulkIndex] succeeded and asked for this rollover
    then returns false, and returns true when the rollover reports no
    error.  What the archival calls before the roll and the re-creation
    calls after it answered has no part in the result. *)
Theorem rollover_reports_the_roll_of_the_index
    (fuel : nat) (s s' : State (Recorder C)) (r : option error) :
  rollAndDumpTopology fuel s = Some (r, s') ->
  (exists before after,
      trace s' = trace s ++ before ++ CallRollIndex r :: after /\
      Forall readOrArchive before /\
      (r <> None -> after = [])) /\
  (forall (n : Node) (s0 : State (Recorder C)),
      fst (call (BulkIndex "node"
                   (ID (nodeElement n) +:+ "-" +:+ FormatInt (revision (nodeElement n)))
                   (mapNode n)) s0) = (true, None) ->
      s = snd (storeRevision (ID (nodeElement n)) (revision (nodeElement n))
                 (snd (call (BulkIndex "node"
                               (ID (nodeElement n) +:+ "-" +:+
                                FormatInt (revision (nodeElement n)))
                               (mapNode n)) s0))) ->
      outcome (createNode fuel n s0) = Some (bool_decide (r = None))) /\
  (forall (e : Edge) (s0 : State (Recorder C)),
      fst (call (BulkIndex "edge"
                   (ID (edgeElement e) +:+ "-" +:+ FormatInt (revision (edgeElement e)))
                   (mapEdge e)) s0) = (true, None) ->
      s = snd (storeRevision (ID (edgeElement e)) (revision (edgeElement e))
                 (snd (call (BulkIndex "edge"
                               (ID (edgeElement e) +:+ "-" +:+
                                FormatInt (revision (edgeElement e)))
                               (mapEdge e)) s0))) ->
      outcome (createEdge fuel e s0) = Some (bool_decide (r = None))).
Proof.
  intros Hroll. split; [|split].
  - pose proof Hroll as Hinv.
    apply (rollAndDumpTopology_inv (traceGrows readOrArchive)) in Hinv;
      try (trace_steps ltac:(split; reflexivity)).
    destruct Hinv as (s1 & (before & Hbefore & HF) & Hr & Hrest).
    pose proof (trace_RollIndex s1) as Htr. cbv zeta in Htr.
    destruct (call RollIndex s1) as [r' s2]. simpl in Hr, Hrest, Htr. subst r'.
    exists before. destruct r as [err|].
    + exists []. subst s'. split; [|split; [exact HF | reflexivity]].
      rewrite Htr, Hbefore, <- app_assoc. reflexivity.
    + destruct Hrest as (fuel' & nodes & edges & s3 & _ & Hnodes & Hedges).
      apply (preservesF_forEach (traceGrows (fun _ => True))) in Hnodes;
        try (trace_steps ltac:(exact I)).
      2:{ intros x. apply preservesF_createNodeWith;
            try (trace_steps ltac:(exact I)). apply rollAndDumpTopology_trace. }
      apply (preservesF_forEach (traceGrows (fun _ => True))) in Hedges;
        try (trace_steps ltac:(exact I)).
      2:{ intros x. apply preservesF_createEdgeWith;
            try (trace_steps ltac:(exact I)). apply rollAndDumpTopology_trace. }
      destruct Hnodes as (e1 & He1 & _). destruct Hedges as (e2 & He2 & _).
      change (trace s3 = trace s2 ++ e1) in He1.
      exists (e1 ++ e2). split; [|split; [exact HF | intros Hne; congruence]].
      rewrite He2, He1, Htr, Hbefore, <- !app_assoc. reflexivity.
  - intros n s0 Hindex ->. eapply createNodeWith_after_roll; eassumption.
  - intros e s0 Hindex ->. eapply createEdgeWith_after_roll; eassumption.
Qed.

End Trace.

(** ** Single-ID lookups and decoding of hits *)

Section Lookups.
Context `{Platform} `{!GraphPackage} {C : Type} `{!ElasticSearchClientInterface C}.
Local Open Scope string_scope.
Local Open Scope list_scope.

Lemma ascending_cons_le {A} (key : A -> Z) a xs m :
  ascending key (a :: xs) = true -> m ∈ xs -> (key a <= key m)%Z.
Proof.
  revert a. induction xs as [|b xs IH]; intros a Hasc Hin.
  - inversion Hin.
  - cbn in Hasc. apply andb_true_iff in Hasc as [Hab Hrest].
    apply Z.leb_le in Hab. apply elem_of_cons in Hin as [->|Hin]; [exact Hab|].
    specialize (IH b Hrest Hin). lia.
Qed.

(** In an ascending list the last element has the greatest key. *)
Lemma ascending_last_greatest {A} (key : A -> Z) xs n m :
  ascending key xs = true -> last xs = Some n -> m ∈ xs -> (key m <= key n)%Z.
Proof.
  induction xs as [|a xs IH]; intros Hasc Hlast Hin; [inversion Hin|].
  destruct xs as [|b xs].
  - simpl in Hlast. inversion Hlast; subst. apply list_elem_of_singleton in Hin.
    subst. lia.
  - change (last (a :: b :: xs)) with (last (b :: xs)) in Hlast.
    apply elem_of_cons in Hin as [->|Hin].
    + apply (ascending_cons_le key a (b :: xs) n Hasc).
      apply list_elem_of_lookup. exists (pred (length (b :: xs))).
      rewrite <- last_lookup. exact Hlast.
    + cbn in Hasc. apply andb_true_iff in Hasc as [_ Hrest]. apply IH; assumption.
Qed.

Lemma keep_last_spec {A} (key : A -> Z) (xs : list A) :
  let kept := if (1 <? length xs)%nat && true
              then match xs !! (length xs - 1)%nat with
                   | Some x => [x]
                   | None => []
                   end
              else xs in
  (length kept <= 1)%nat /\
  ((length xs <= 1)%nat -> kept = xs) /\
  ((1 < length xs)%nat ->
     exists x, last xs = Some x /\ kept = [x] /\
       (ascending key xs = true -> forall m, m ∈ xs -> (key m <= key x)%Z)).
Proof.
  cbv zeta. rewrite andb_true_r.
  destruct (1 <? length xs)%nat eqn:Hlen.
  - apply Nat.ltb_lt in Hlen.
    rewrite Nat.sub_1_r, <- last_lookup.
    destruct (last xs) as [x|] eqn:Hlast.
    + split; [simpl; lia|]. split; [lia|]. intros _. exists x.
      split; [reflexivity|]. split; [reflexivity|].
      intros Hasc m Hin. eapply ascending_last_greatest; eassumption.
    + apply last_None in Hlast. subst xs. simpl in Hlen. lia.
  - apply Nat.ltb_ge in Hlen. split; [exact Hlen|]. split; [reflexivity|]. lia.
Qed.

(** C5.  With the time-point flag set, [GetNode] and [GetEdge] search for
    the ID with the results sorted by [Revision] and never return more
    than one element.  When the search gives more than one document the
    result is exactly the last of them; if the documents come in
    ascending order of revision, as the sort asks of the store, that
    element has the greatest revision of all the documents found.  When
    the search gives at most one document the result is what it gave. *)
Theorem time_point_lookup_returns_the_last_revision
    (i : Identifier) (t : GraphContext) (s : State C) :
  TimePoint t = true ->
  let tsq :=
    {| tsqSearchQuery :=
         {| sqFilter := Some (NewTermStringFilter "ID" i);
            Sort := true; SortBy := "Revision" |};
       TimeFilter := getTimeFilter (ctxTimeSlice t);
       MetadataFilter := None |} in
  let start := match ctxTimeSlice t with
               | None => call GetIndexAlias
               | Some _ => ret ""
               end s in
  (let found := searchNodes tsq (fst start) (snd start) in
   let got := GetNode i t s in
   snd got = snd found /\
   (length (fst got) <= 1)%nat /\
   ((length (fst found) <= 1)%nat -> fst got = fst found) /\
   ((1 < length (fst found))%nat ->
      exists n, last (fst found) = Some n /\ fst got = [n] /\
        (ascending (fun n => revision (nodeElement n)) (fst found) = true ->
         forall m, m ∈ fst found ->
                   (revision (nodeElement m) <= revision (nodeElement n))%Z))) /\
  (let found := searchEdges tsq (fst start) (snd start) in
   let got := GetEdge i t s in
   snd got = snd found /\
   (length (fst got) <= 1)%nat /\
   ((length (fst found) <= 1)%nat -> fst got = fst found) /\
   ((1 < length (fst found))%nat ->
      exists e, last (fst found) = Some e /\ fst got = [e] /\
        (ascending (fun e => revision (edgeElement e)) (fst found) = true ->
         forall m, m ∈ fst found ->
                   (revision (edgeElement m) <= revision (edgeElement e))%Z))).
Proof.
  intros Htp. cbv zeta. unfold GetNode, GetEdge, bind.
  destruct (match ctxTimeSlice t with
            | None => call GetIndexAlias
            | Some _ => ret ""
            end s) as [index s1]. simpl fst. simpl snd.
  rewrite Htp. split.
  - destruct (searchNodes _ index s1) as [nodes s2]. simpl fst. simpl snd.
    pose proof (keep_last_spec (fun n => revision (nodeElement n)) nodes) as Hk.
    cbv zeta in Hk.
    destruct ((1 <? length nodes)%nat && true);
      [destruct (nodes !! (length nodes - 1)%nat)|]; (split; [reflexivity | exact Hk]).
  - destruct (searchEdges _ index s1) as [edges s2]. simpl fst. simpl snd.
    pose proof (keep_last_spec (fun e => revision (edgeElement e)) edges) as Hk.
    cbv zeta in Hk.
    destruct ((1 <? length edges)%nat && true);
      [destruct (edges !! (length edges - 1)%nat)|]; (split; [reflexivity | exact Hk]).
Qed.

(** Every hit gives one element of the result, whether or not its
    source could be decoded. *)
Lemma searchNodesHits_length hits nodes (s : State C) :
  length (fst (searchNodesHits hits nodes s)) = (length nodes + length hits)%nat.
Proof.
  revert nodes s. induction hits as [|d hits IH]; intros nodes s; simpl.
  - lia.
  - destruct (hitToNode (Source d) zeroNode) as [node err]. unfold bind.
    destruct err as [e|]; simpl; rewrite IH, length_app; simpl; lia.
Qed.

Lemma searchEdgesHits_length hits edges (s : State C) :
  length (fst (searchEdgesHits hits edges s)) = (length edges + length hits)%nat.
Proof.
  revert edges s. induction hits as [|d hits IH]; intros edges s; simpl.
  - lia.
  - destruct (hitToEdge (Source d) zeroEdge) as [edge err]. unfold bind.
    destruct err as [e|]; simpl; rewrite IH, length_app; simpl; lia.
Qed.

End Lookups.

(** ** Runs that exercise the statements above *)

Lemma updateTimes_unknown_revision_aborts_known_archives_witness :
  fst (updateTimes (INode (fixture.node "n1" 1 7)) fixture.fresh) = false /\
  exists err,
    trace (snd (updateTimes (INode (fixture.node "n1" 1 7)) fixture.tracking)) =
      trace fixture.tracking ++
      [CallBulkUpdateWithPartialDoc "node" "n1-0"
         (<["ArchivedAt"%string := VInt64 7]> ∅) err].
Proof.
  split.
  - apply (proj1 (updateTimes_unknown_revision_aborts_known_archives
                    (INode (fixture.node "n1" 1 7)) (fixture.element "n1" 1 7)
                    fixture.fresh eq_refl)).
    vm_compute. reflexivity.
  - destruct (proj2 (updateTimes_unknown_revision_aborts_known_archives
                       (INode (fixture.node "n1" 1 7)) (fixture.element "n1" 1 7)
                       fixture.tracking eq_refl) 0%Z) as (err & Htrace & _).
    + vm_compute. reflexivity.
    + exists err. exact Htrace.
Defined.

Lemma MetadataUpdated_archives_before_it_writes_witness :
  MetadataUpdated 0 (IEdge (fixture.edge "e9" 1 7)) fixture.fresh =
    Some (false, snd (updateTimes (IEdge (fixture.edge "e9" 1 7)) fixture.fresh)) /\
  exists prior shouldRoll rest,
    prevRevision fixture.tracking !! "n1"%string = Some prior /\
    trace (finalState fixture.tracking
             (MetadataUpdated 0 (INode (fixture.node "n1" 1 7)) fixture.tracking)) =
      trace fixture.tracking ++
      CallBulkUpdateWithPartialDoc "node" ("n1" +:+ "-" +:+ FormatInt prior)
        (<["ArchivedAt"%string := VInt64 7]> ∅) None ::
      CallBulkIndex "node" "n1-1" (mapNode (fixture.node "n1" 1 7)) shouldRoll None ::
      rest.
Proof.
  split.
  - apply (proj1 (MetadataUpdated_archives_before_it_writes 0
                    (IEdge (fixture.edge "e9" 1 7)) (fixture.element "e9" 1 7)
                    fixture.fresh eq_refl)).
    vm_compute. reflexivity.
  - destruct (proj2 (MetadataUpdated_archives_before_it_writes 0
                       (INode (fixture.node "n1" 1 7)) (fixture.element "n1" 1 7)
                       fixture.tracking eq_refl)
                (finalState fixture.tracking
                   (MetadataUpdated 0 (INode (fixture.node "n1" 1 7)) fixture.tracking)))
      as (prior & shouldRoll & rest & Hprior & Htrace & _).
    + apply run_result. vm_compute. reflexivity.
    + exists prior, shouldRoll, rest. split; [exact Hprior | exact Htrace].
Defined.

Lemma matcher_error_gives_empty_result_without_search_witness :
  fst (GetNodes (fixture.now true) (Some fixture.failingMatcher) fixture.threeRevisions) = [] /\
  fst (GetEdges (fixture.now false) (Some fixture.failingMatcher) fixture.threeRevisions) = [].
Proof.
  split.
  - apply (matcher_error_gives_empty_result_without_search (fixture.now true)
             fixture.failingMatcher (fixture.node "n1" 0 5)
             "unsupported metadata matcher" fixture.threeRevisions).
    reflexivity.
  - apply (matcher_error_gives_empty_result_without_search (fixture.now false)
             fixture.failingMatcher (fixture.node "n1" 0 5)
             "unsupported metadata matcher" fixture.threeRevisions).
    reflexivity.
Defined.

(** The store holds revisions 0, 1 and 2 of "n1": the time-point lookup
    returns one node, whose revision is the greatest. *)
Lemma time_point_lookup_returns_the_last_revision_witness :
  exists n,
    fst (GetNode "n1" (fixture.now true) fixture.threeRevisions) = [n] /\
    forall m,
      m ∈ fst (searchNodes
                 {| tsqSearchQuery :=
                      {| sqFilter := Some (NewTermStringFilter "ID" "n1");
                         Sort := true; SortBy := "Revision" |};
                    TimeFilter := getTimeFilter None;
                    MetadataFilter := None |}
                 (fst (call GetIndexAlias fixture.threeRevisions))
                 (snd (call GetIndexAlias fixture.threeRevisions))) ->
      (revision (nodeElement m) <= revision (nodeElement n))%Z.
Proof.
  destruct (time_point_lookup_returns_the_last_revision "n1" (fixture.now true)
              fixture.threeRevisions eq_refl) as [(_ & _ & _ & Hlast) _].
  destruct Hlast as (n & _ & Hgot & Hgreatest).
  - vm_compute. lia.
  - exists n. split; [exact Hgot|]. apply Hgreatest. vm_compute. reflexivity.
Defined.

Lemma rollover_reports_the_roll_of_the_index_witness :
  outcome (createNode 1 (fixture.node "n1" 0 5) fixture.rollFails) = Some false /\
  exists before after,
    trace (finalState fixture.fresh (rollAndDumpTopology 1
             (snd (storeRevision "n1" 0
                     (snd (call (BulkIndex "node" "n1-0"
                                   (mapNode (fixture.node "n1" 0 5)))
                             fixture.rollFails)))))) =
      trace (snd (storeRevision "n1" 0
                    (snd (call (BulkIndex "node" "n1-0" (mapNode (fixture.node "n1" 0 5)))
                            fixture.rollFails)))) ++
      before ++ CallRollIndex (Some "no such alias"%string) :: after /\
    Forall readOrArchive before /\ after = [].
Proof.
  pose proof (rollover_reports_the_roll_of_the_index 1
                (snd (storeRevision "n1" 0
                        (snd (call (BulkIndex "node" "n1-0"
                                      (mapNode (fixture.node "n1" 0 5)))
                                fixture.rollFails))))
                (finalState fixture.fresh (rollAndDumpTopology 1
                   (snd (storeRevision "n1" 0
                           (snd (call (BulkIndex "node" "n1-0"
                                         (mapNode (fixture.node "n1" 0 5)))
                                   fixture.rollFails))))))
                (Some "no such alias"%string)) as Hroll.
  destruct Hroll as ((before & after & Htrace & Hbefore & Hafter) & Hnode & _).
  - apply run_result. vm_compute. reflexivity.
  - split.
    + apply (Hnode (fixture.node "n1" 0 5) fixture.rollFails).
      * vm_compute. reflexivity.
      * reflexivity.
    + exists before, after. split; [exact Htrace|]. split; [exact Hbefore|].
      apply Hafter. discriminate.
Defined.

(** C3.  The search finds three hits, the second of which is not JSON.
    [searchNodes] and [searchEdges] log the failure to decode it, at debug
    level, and go on to decode the third hit; but the element the failed
    decode left, the zero value, is appended to the result like the
    others, so the result has three elements where two hits could be
    decoded. *)
Theorem search_keeps_the_element_of_an_undecodable_hit :
  let nodes := searchNodes fixture.anyQuery "" fixture.oneMalformed in
  let edges := searchEdges fixture.anyQuery "" fixture.oneMalformed in
  map (fun n => (ID (nodeElement n), revision (nodeElement n))) (fst nodes) =
    [("n1", 3%Z); ("", 0%Z); ("n2", 1%Z)]%string /\
  map (fun l => (logLevel l, logFormat l)) (logged (snd nodes)) =
    [(LevelDebug, "Failed to unmarshal node: %+v"%string)] /\
  map (fun e => (ID (edgeElement e), revision (edgeElement e))) (fst edges) =
    [("n1", 3%Z); ("", 0%Z); ("n2", 1%Z)]%string /\
  map (fun l => (logLevel l, logFormat l)) (logged (snd edges)) =
    [(LevelDebug, "Failed to unmarshal edge: %+v"%string)].
Proof. vm_compute. repeat split; reflexivity. Qed.

(** C2 as stated does not hold.  [NodeAdded] writes "n1" and the store
    asks for a rollover.  In the rollover the archival of the fetched node
    "n7" fails and, after the roll, so does its re-creation; both are
    logged, the rollover goes on to its end, and [NodeAdded] returns
    true. *)
Lemma rollover_goes_on_after_archival_and_recreation_failures :
  let run := NodeAdded 1 (fixture.node "n1" 0 5) fixture.rollSucceedsAroundFailures in
  outcome run = Some true /\
  map summary (trace (finalState fixture.rollSucceedsAroundFailures run)) =
    [("BulkIndex", "n1-0", None); ("GetIndexAlias", "", None);
     ("FormatFilter", "", None); ("FormatFilter", "", None);
     ("FormatFilter", "", None); ("Search", "node", None);
     ("GetIndexAlias", "", None); ("FormatFilter", "", None);
     ("FormatFilter", "", None); ("FormatFilter", "", None);
     ("Search", "edge", None);
     ("BulkUpdateWithPartialDoc", "n7-3", Some "version conflict");
     ("RollIndex", "", None); ("BulkIndex", "n7-3", Some "index closed")]%string /\
  map logFormat (logged (finalState fixture.rollSucceedsAroundFailures run)) =
    ["Mark all current nodes and edges as 'archived now' in the old index";
     "Error while archiving %s %s: %s"; "Rolling the Index ";
     "Insert all current nodes and edges to the new index";
     "Error while adding node %s: %s"]%string.
Proof. vm_compute. repeat split; reflexivity. Qed.

(** * Further properties of the code *)

(** ** The application port map and its configuration *)

Section PortTables.
Local Open Scope string_scope.

(** [application] answers true exactly with an application the protocol
    map holds for one of the two ports (the destination port only when
    the source port is not mapped), and answers false, with the empty
    string, exactly when neither port is mapped. *)
Theorem application_answers_from_the_map
    (a : flow.receiver) (srcPort dstPort : Z) (protoMap : gmap Z string) :
  (forall app,
      flow.application a srcPort dstPort protoMap = (app, true) <->
      protoMap !! srcPort = Some app \/
      (protoMap !! srcPort = None /\ protoMap !! dstPort = Some app)) /\
  (snd (flow.application a srcPort dstPort protoMap) = false <->
   protoMap !! srcPort = None /\ protoMap !! dstPort = None) /\
  (snd (flow.application a srcPort dstPort protoMap) = false ->
   fst (flow.application a srcPort dstPort protoMap) = "").
Proof.
  unfold flow.application.
  destruct (protoMap !! srcPort) as [s|] eqn:Hs;
    [|destruct (protoMap !! dstPort) as [d|] eqn:Hd]; simpl.
  - split; [|split].
    + intros app. split.
      * intros Heq. inversion Heq. left. reflexivity.
      * intros [Heq|[Heq _]]; inversion Heq. reflexivity.
    + split; [discriminate | intros [Heq _]; discriminate].
    + discriminate.
  - split; [|split].
    + intros app. split.
      * intros Heq. inversion Heq. right. split; reflexivity.
      * intros [Heq|[_ Heq]]; inversion Heq. reflexivity.
    + split; [discriminate | intros [_ Heq]; discriminate].
    + discriminate.
  - split; [|split].
    + intros app. split.
      * discriminate.
      * intros [Heq|[_ Heq]]; discriminate.
    + split; auto.
    + reflexivity.
Qed.

End PortTables.

Section PortConfiguration.
Variable GetStringMapString : string -> list (string * string).
Variable Atoi : string -> string + Z.
Variable ToUpper : string -> string.
Local Open Scope string_scope.
Local Open Scope list_scope.

Lemma foldl_insert_list_to_map (l : list (Z * string)) :
  foldl (fun (m : gmap Z string) (e : Z * string) => <[fst e := snd e]> m) ∅ l =
  list_to_map (reverse l).
Proof.
  induction l as [|x l IH] using rev_ind; [reflexivity|].
  rewrite foldl_app, reverse_app. simpl. rewrite IH. destruct x. reflexivity.
Qed.

(** A pass over the "udp" map changes only the UDP table: it enters the
    parsed entries in order; every entry whose port does not parse adds
    one line to the log. *)
Lemma initProto_udp_fold (m : list (string * string)) a log :
  foldl (fun st entry => flow.initEntry Atoi ToUpper "udp" entry st) (a, log) m =
  ({| flow.UDP := foldl (fun (t : gmap Z string) (e : Z * string) => <[fst e := snd e]> t)
                        (flow.UDP a) (flow.parsed Atoi ToUpper m);
      flow.TCP := flow.TCP a |},
   log ++ omap (fun entry : string * string =>
                  match Atoi (fst entry) with
                  | inl err =>
                      Some ("Unable to parse %s application port %s: %s",
                            ["udp"; fst entry; err])
                  | inr _ => None
                  end) m).
Proof.
  revert a log. induction m as [|[port name] m IH]; intros a log; simpl.
  - rewrite app_nil_r. destruct a. reflexivity.
  - unfold flow.parsed. simpl. destruct (Atoi port) as [err|i] eqn:Hp; simpl.
    + rewrite IH. rewrite <- app_assoc. reflexivity.
    + rewrite IH. reflexivity.
Qed.

Lemma initProto_tcp_fold (m : list (string * string)) a log :
  foldl (fun st entry => flow.initEntry Atoi ToUpper "tcp" entry st) (a, log) m =
  ({| flow.UDP := flow.UDP a;
      flow.TCP := foldl (fun (t : gmap Z string) (e : Z * string) => <[fst e := snd e]> t)
                        (flow.TCP a) (flow.parsed Atoi ToUpper m) |},
   log ++ omap (fun entry : string * string =>
                  match Atoi (fst entry) with
                  | inl err =>
                      Some ("Unable to parse %s application port %s: %s",
                            ["tcp"; fst entry; err])
                  | inr _ => None
                  end) m).
Proof.
  revert a log. induction m as [|[port name] m IH]; intros a log; simpl.
  - rewrite app_nil_r. destruct a. reflexivity.
  - unfold flow.parsed. simpl. destruct (Atoi port) as [err|i] eqn:Hp; simpl.
    + rewrite IH. rewrite <- app_assoc. reflexivity.
    + rewrite IH. reflexivity.
Qed.

Lemma port_tables_of_config (log : list flow.LogLine) :
  let udp := GetStringMapString "flow.application_ports.udp" in
  let tcp := GetStringMapString "flow.application_ports.tcp" in
  let r := flow.NewApplicationPortMapFromConfig GetStringMapString Atoi ToUpper log in
  flow.UDP (fst r) = list_to_map (reverse (flow.parsed Atoi ToUpper udp)) /\
  flow.TCP (fst r) = list_to_map (reverse (flow.parsed Atoi ToUpper tcp)) /\
  length (snd r) =
    (length log + (length udp - length (flow.parsed Atoi ToUpper udp))
                + (length tcp - length (flow.parsed Atoi ToUpper tcp)))%nat.
Proof.
  cbv zeta. unfold flow.NewApplicationPortMapFromConfig, flow.init. simpl.
  unfold flow.initProto. simpl.
  rewrite initProto_udp_fold. rewrite initProto_tcp_fold. simpl.
  rewrite !foldl_insert_list_to_map. split; [reflexivity|]. split; [reflexivity|].
  rewrite !length_app.
  assert (forall proto (m : list (string * string)),
            (length (omap (fun entry : string * string =>
                             match Atoi (fst entry) with
                             | inl err =>
                                 Some ("Unable to parse %s application port %s: %s",
                                       [proto; fst entry; err])
                             | inr _ => None
                             end) m) +
             length (flow.parsed Atoi ToUpper m) = length m)%nat) as Hcount.
  { intros proto m. unfold flow.parsed.
    induction m as [|e m IH]; simpl; [reflexivity|].
    destruct (Atoi (fst e)); simpl in *; rewrite ?Nat.add_succ_r; f_equal; exact IH. }
  pose proof (Hcount "udp" (GetStringMapString "flow.application_ports.udp")) as Hu.
  pose proof (Hcount "tcp" (GetStringMapString "flow.application_ports.tcp")) as Ht.
  change ("flow.application_ports." +:+ "udp") with "flow.application_ports.udp".
  change ("flow.application_ports." +:+ "tcp") with "flow.application_ports.tcp".
  rewrite <- Hu, <- Ht, !Nat.add_sub. reflexivity.
Qed.

(** The tables [NewApplicationPortMapFromConfig] builds are the
    configured maps with the ports parsed and the names in upper case,
    a later entry of the loop replacing an earlier one with the same
    port: the UDP table comes from "flow.application_ports.udp" alone and
    the TCP table from "flow.application_ports.tcp" alone.  Entries whose
    port does not parse are left out, and each of them is logged once. *)
Theorem NewApplicationPortMapFromConfig_tables (log : list flow.LogLine) :
  let udp := GetStringMapString "flow.application_ports.udp" in
  let tcp := GetStringMapString "flow.application_ports.tcp" in
  let r := flow.NewApplicationPortMapFromConfig GetStringMapString Atoi ToUpper log in
  flow.UDP (fst r) = list_to_map (reverse (flow.parsed Atoi ToUpper udp)) /\
  flow.TCP (fst r) = list_to_map (reverse (flow.parsed Atoi ToUpper tcp)) /\
  length (snd r) =
    (length log + (length udp - length (flow.parsed Atoi ToUpper udp))
                + (length tcp - length (flow.parsed Atoi ToUpper tcp)))%nat.
Proof. exact (port_tables_of_config log). Qed.

(** What a table holds comes from the configuration: a port mapped to a
    name is the parsed port of an entry of the TCP map whose name, in
    upper case, is that name.  And when no two entries of the TCP map
    parse to the same port, every entry that parses is in the table,
    whatever the order in which the loop met the entries. *)
Theorem NewApplicationPortMapFromConfig_tcp_entries
    (log : list flow.LogLine) (i : Z) (name : string) :
  let tcp := GetStringMapString "flow.application_ports.tcp" in
  let table :=
    flow.TCP (fst (flow.NewApplicationPortMapFromConfig GetStringMapString Atoi ToUpper log)) in
  (table !! i = Some name ->
   exists port raw, (port, raw) ∈ tcp /\ Atoi port = inr i /\ name = ToUpper raw) /\
  (NoDup (map fst (flow.parsed Atoi ToUpper tcp)) ->
   forall port raw, (port, raw) ∈ tcp -> Atoi port = inr i ->
                    table !! i = Some (ToUpper raw)).
Proof.
  cbv zeta.
  destruct (port_tables_of_config log) as (_ & Htcp & _).
  cbv zeta in Htcp. rewrite Htcp. split.
  - intros Hlook. apply elem_of_list_to_map_2 in Hlook.
    rewrite elem_of_reverse in Hlook. unfold flow.parsed in Hlook.
    apply list_elem_of_omap in Hlook. destruct Hlook as ([port raw] & Hin & Hp).
    simpl in Hp. destruct (Atoi port) as [err|j] eqn:Hj; [discriminate|].
    inversion Hp; subst. exists port, raw. auto.
  - intros Hnodup port raw Hin Hp. apply elem_of_list_to_map_1.
    + rewrite fmap_reverse, reverse_Permutation. exact Hnodup.
    + rewrite elem_of_reverse. unfold flow.parsed. apply list_elem_of_omap.
      exists (port, raw). split; [exact Hin|]. simpl. rewrite Hp. reflexivity.
Qed.

End PortConfiguration.

(** With the configuration of [portFixture] ("http" is not a port
    number): port 443 of the TCP table is "HTTPS". *)
Lemma NewApplicationPortMapFromConfig_tcp_entries_witness :
  flow.TCP (fst (flow.NewApplicationPortMapFromConfig portFixture.GetStringMapString
                   portFixture.Atoi portFixture.ToUpper []))
    !! 443%Z = Some "HTTPS"%string.
Proof.
  apply (proj2 (NewApplicationPortMapFromConfig_tcp_entries portFixture.GetStringMapString
                  portFixture.Atoi portFixture.ToUpper [] 443%Z "HTTPS"%string))
    with (port := "443"%string) (raw := "https"%string).
  - apply (bool_decide_unpack _). vm_compute. exact I.
  - apply (bool_decide_unpack _). vm_compute. exact I.
  - vm_compute. reflexivity.
Defined.

(** ** Queries *)

Section QueryPreservation.
Context `{Platform} `{!GraphPackage} {C : Type} `{!ElasticSearchClientInterface C}.
Variable R : State C -> State C -> Prop.
Hypothesis R_refl : forall s, R s s.
Hypothesis R_trans : forall s1 s2 s3, R s1 s2 -> R s2 s3 -> R s1 s3.
Hypothesis R_logf : forall lvl format args, preserves R (logf lvl format args).
Hypothesis R_FormatFilter : forall f prefix, preserves R (call (FormatFilter f prefix)).
Hypothesis R_Search :
  forall obj q index sq, preserves R (call (Search obj q index sq)).
Hypothesis R_GetIndexAlias : preserves R (call GetIndexAlias).

Lemma preserves_GetNodeEdges n t m : preserves R (GetNodeEdges n t m).
Proof.
  unfold GetNodeEdges. apply (preserves_bind R R_trans).
  { destruct (ctxTimeSlice t); [apply (preserves_ret R R_refl) | exact R_GetIndexAlias]. }
  intros index.
  assert (forall filter tsq, preserves R
            (bind (searchEdges {| tsqSearchQuery := tsq;
                                  TimeFilter := getTimeFilter (ctxTimeSlice t);
                                  MetadataFilter := filter |} index)
                  (fun edges => if (1 <? length edges)%nat && TimePoint t
                                then ret (dedupEdges edges) else ret edges))) as Hs.
  { intros. apply (preserves_bind R R_trans).
    - apply (preserves_searchEdges R R_refl R_trans R_logf R_FormatFilter R_Search).
    - intros edges. destruct ((1 <? length edges)%nat && TimePoint t);
        apply (preserves_ret R R_refl). }
  destruct m as [m|]; [destruct (matcherFilter m) as [f [err|]]|];
    first [apply (preserves_ret R R_refl) | apply Hs].
Qed.

Lemma preserves_GetEdgeNodes MatchMetadata e t parentMetadata childMetadata :
  preserves R (GetEdgeNodes MatchMetadata e t parentMetadata childMetadata).
Proof.
  unfold GetEdgeNodes. apply (preserves_bind R R_trans).
  { apply (preserves_GetNode R R_refl R_trans R_logf R_FormatFilter R_Search
             R_GetIndexAlias). }
  intros parents. apply (preserves_bind R R_trans).
  { apply (preserves_GetNode R R_refl R_trans R_logf R_FormatFilter R_Search
             R_GetIndexAlias). }
  intros children. apply (preserves_ret R R_refl).
Qed.

End QueryPreservation.

Section ReadOnlyQueries.
Context `{Platform} `{!GraphPackage} {C : Type} `{!ElasticSearchClientInterface C}.
Implicit Types s : State (Recorder C).
Local Open Scope string_scope.
Local Open Scope list_scope.

Lemma readOnly_refl s : readOnly s s.
Proof.
  split; [reflexivity|]. split; [reflexivity|].
  exists []. split; [symmetry; apply app_nil_r | constructor].
Qed.

Lemma readOnly_trans s1 s2 s3 : readOnly s1 s2 -> readOnly s2 s3 -> readOnly s1 s3.
Proof.
  intros (Hp1 & Hc1 & e1 & He1 & HF1) (Hp2 & Hc2 & e2 & He2 & HF2).
  split; [congruence|]. split; [congruence|].
  exists (e1 ++ e2). split.
  - rewrite He2, He1, app_assoc. reflexivity.
  - apply Forall_app. split; assumption.
Qed.

Lemma readOnly_logf lvl format args :
  preserves (C:=Recorder C) readOnly (logf lvl format args).
Proof.
  intros s. split; [reflexivity|]. split; [reflexivity|].
  exists []. split; [symmetry; apply app_nil_r | constructor].
Qed.

Lemma readOnly_record {A} (method : C -> A * C) (event : A -> Call) :
  (forall a, readOnlyCall (event a)) -> preserves readOnly (call (record method event)).
Proof.
  intros HP s. split; [|split].
  - unfold call, record. destruct (method (inner (client s))). reflexivity.
  - unfold call, record. destruct (method (inner (client s))). reflexivity.
  - exists [event (fst (call (record method event) s))]. split.
    + unfold call, record, trace. destruct (method (inner (client s))). reflexivity.
    + repeat constructor; apply HP.
Qed.

Lemma readOnly_FormatFilter f prefix :
  preserves (C:=Recorder C) readOnly (call (FormatFilter f prefix)).
Proof.
  apply (readOnly_record (FormatFilter f prefix) (CallFormatFilter f prefix)).
  intros a. split; reflexivity.
Qed.

Lemma readOnly_Search obj q index sq :
  preserves (C:=Recorder C) readOnly (call (Search obj q index sq)).
Proof.
  apply (readOnly_record (Search obj q index sq)
           (fun r => CallSearch obj q index sq (fst r) (snd r))).
  intros a. split; reflexivity.
Qed.

Lemma readOnly_GetIndexAlias : preserves (C:=Recorder C) readOnly (call GetIndexAlias).
Proof.
  apply (readOnly_record GetIndexAlias CallGetIndexAlias). intros a. split; reflexivity.
Qed.

(** None of the query methods writes: whatever the store answers,
    [GetNode], [GetEdge], [GetNodes], [GetEdges], [GetNodeEdges] and
    [GetEdgeNodes] leave the revision tracker and the clock alone, and ask
    the store for nothing but filter formatting, the index alias and
    searches (no index, no partial update, no roll). *)
Theorem queries_only_read
    (i : Identifier) (t : GraphContext) (m pm cm : option GraphElementMatcher)
    (n : Node) (e : Edge) (MatchMetadata : Node -> option GraphElementMatcher -> bool)
    (s : State (Recorder C)) :
  readOnly s (snd (GetNode i t s)) /\
  readOnly s (snd (GetEdge i t s)) /\
  readOnly s (snd (GetNodes t m s)) /\
  readOnly s (snd (GetEdges t m s)) /\
  readOnly s (snd (GetNodeEdges n t m s)) /\
  readOnly s (snd (GetEdgeNodes MatchMetadata e t pm cm s)).
Proof.
  refine (conj _ (conj _ (conj _ (conj _ (conj _ _))))).
  - apply (preserves_GetNode readOnly readOnly_refl readOnly_trans readOnly_logf
             readOnly_FormatFilter readOnly_Search readOnly_GetIndexAlias).
  - apply (preserves_GetEdge readOnly readOnly_refl readOnly_trans readOnly_logf
             readOnly_FormatFilter readOnly_Search readOnly_GetIndexAlias).
  - apply (preserves_GetNodes readOnly readOnly_refl readOnly_trans readOnly_logf
             readOnly_FormatFilter readOnly_Search readOnly_GetIndexAlias).
  - apply (preserves_GetEdges readOnly readOnly_refl readOnly_trans readOnly_logf
             readOnly_FormatFilter readOnly_Search readOnly_GetIndexAlias).
  - apply (preserves_GetNodeEdges readOnly readOnly_refl readOnly_trans readOnly_logf
             readOnly_FormatFilter readOnly_Search readOnly_GetIndexAlias).
  - apply (preserves_GetEdgeNodes readOnly readOnly_refl readOnly_trans readOnly_logf
             readOnly_FormatFilter readOnly_Search readOnly_GetIndexAlias).
Qed.

End ReadOnlyQueries.

Section SearchResults.
Context `{Platform} `{!GraphPackage} {C : Type} `{!ElasticSearchClientInterface C}.
Implicit Types s : State C.
Local Open Scope string_scope.
Local Open Scope list_scope.

Lemma searchNodesHits_spec hits nodes s :
  searchNodesHits hits nodes s =
  (nodes ++ map decodedNode hits,
   {| client := client s; prevRevision := prevRevision s; clockReads := clockReads s;
      logged := logged s ++ map nodeHitRecord (List.filter nodeHitFails hits) |}).
Proof.
  revert nodes s. induction hits as [|d hits IH]; intros nodes s; simpl.
  - rewrite !app_nil_r. destruct s. reflexivity.
  - unfold decodedNode, nodeHitFails.
    destruct (hitToNode (Source d) zeroNode) as [node [err|]]; simpl;
      unfold bind; simpl; rewrite IH; simpl; rewrite <- !app_assoc; reflexivity.
Qed.

Lemma searchEdgesHits_spec hits edges s :
  searchEdgesHits hits edges s =
  (edges ++ map decodedEdge hits,
   {| client := client s; prevRevision := prevRevision s; clockReads := clockReads s;
      logged := logged s ++ map edgeHitRecord (List.filter edgeHitFails hits) |}).
Proof.
  revert edges s. induction hits as [|d hits IH]; intros edges s; simpl.
  - rewrite !app_nil_r. destruct s. reflexivity.
  - unfold decodedEdge, edgeHitFails.
    destruct (hitToEdge (Source d) zeroEdge) as [edge [err|]]; simpl;
      unfold bind; simpl; rewrite IH; simpl; rewrite <- !app_assoc; reflexivity.
Qed.

(** What [searchNodes] and [searchEdges] make of the store's answer.  On
    an error of the query the result is empty and the error is logged
    once.  Otherwise every hit is decoded on its own, from the zero value,
    and the results come in the order of the hits, one per hit; the log
    gets one debug record for each hit whose decoding failed, in that
    order.  Either way the search leaves the client as the query left it
    and does not touch the tracker. *)
Theorem search_decodes_each_hit_in_order
    (tsq : TimedSearchQuery) (index : string) (s : State C) :
  (let q := Query "node" tsq index s in
   let r := searchNodes tsq index s in
   client (snd r) = client (snd q) /\
   prevRevision (snd r) = prevRevision (snd q) /\
   match fst q with
   | (_, Some err) =>
       fst r = [] /\
       logged (snd r) =
         logged (snd q) ++
         [{| logLevel := LevelError; logFormat := "Failed to query nodes: %s";
             logArgs := [LStr err] |}]
   | (Some out, None) =>
       fst r = map decodedNode (Hits out) /\
       logged (snd r) =
         logged (snd q) ++ map nodeHitRecord (List.filter nodeHitFails (Hits out))
   | (None, None) => fst r = [] /\ logged (snd r) = logged (snd q)
   end) /\
  (let q := Query "edge" tsq index s in
   let r := searchEdges tsq index s in
   client (snd r) = client (snd q) /\
   prevRevision (snd r) = prevRevision (snd q) /\
   match fst q with
   | (_, Some err) =>
       fst r = [] /\
       logged (snd r) =
         logged (snd q) ++
         [{| logLevel := LevelError; logFormat := "Failed to query edges: %s";
             logArgs := [LStr err] |}]
   | (Some out, None) =>
       fst r = map decodedEdge (Hits out) /\
       logged (snd r) =
         logged (snd q) ++ map edgeHitRecord (List.filter edgeHitFails (Hits out))
   | (None, None) => fst r = [] /\ logged (snd r) = logged (snd q)
   end).
Proof.
  split; cbv zeta.
  - unfold searchNodes, bind.
    destruct (Query "node" tsq index s) as [[[out|] [err|]] s1]; cbn beta iota;
      try (simpl; repeat split; reflexivity).
    assert ((if (0 <? length (Hits out))%nat
             then searchNodesHits (Hits out) [] else ret []) s1 =
            searchNodesHits (Hits out) [] s1) as ->.
    { destruct (Hits out); [destruct s1|]; reflexivity. }
    rewrite searchNodesHits_spec. simpl. repeat split; reflexivity.
  - unfold searchEdges, bind.
    destruct (Query "edge" tsq index s) as [[[out|] [err|]] s1]; cbn beta iota;
      try (simpl; repeat split; reflexivity).
    assert ((if (0 <? length (Hits out))%nat
             then searchEdgesHits (Hits out) [] else ret []) s1 =
            searchEdgesHits (Hits out) [] s1) as ->.
    { destruct (Hits out); [destruct s1|]; reflexivity. }
    rewrite searchEdgesHits_spec. simpl. repeat split; reflexivity.
Qed.

Lemma GetNode_time_point_length i t s :
  TimePoint t = true -> (length (fst (GetNode i t s)) <= 1)%nat.
Proof.
  intros Htp. unfold GetNode, bind.
  destruct (match ctxTimeSlice t with
            | None => call GetIndexAlias
            | Some _ => ret ""
            end s) as [index s1].
  destruct (searchNodes _ index s1) as [nodes s2]. rewrite Htp.
  pose proof (keep_last_spec (fun n => revision (nodeElement n)) nodes) as (Hk & _).
  cbv zeta in Hk.
  destruct ((1 <? length nodes)%nat && true);
    [destruct (nodes !! (length nodes - 1)%nat)|]; exact Hk.
Qed.

(** [GetEdgeNodes] looks the parent up, then the child, with [GetNode],
    and keeps of each lookup the nodes that match the metadata: every
    node it returns was found by the lookup and matches, every found node
    that matches is returned, and with the time-point flag set there is
    at most one parent and at most one child. *)
Theorem GetEdgeNodes_keeps_the_matching_lookups
    (MatchMetadata : Node -> option GraphElementMatcher -> bool)
    (e : Edge) (t : GraphContext) (pm cm : option GraphElementMatcher) (s : State C) :
  let r := GetEdgeNodes MatchMetadata e t pm cm s in
  let parents := GetNode (parent e) t s in
  let children := GetNode (child e) t (snd parents) in
  snd r = snd children /\
  (forall n, n ∈ fst (fst r) <-> n ∈ fst parents /\ MatchMetadata n pm = true) /\
  (forall n, n ∈ snd (fst r) <-> n ∈ fst children /\ MatchMetadata n cm = true) /\
  (TimePoint t = true ->
   (length (fst (fst r)) <= 1)%nat /\ (length (snd (fst r)) <= 1)%nat).
Proof.
  cbv zeta. unfold GetEdgeNodes, bind.
  pose proof (GetNode_time_point_length (parent e) t s) as Hp.
  destruct (GetNode (parent e) t s) as [parents s1]. simpl in Hp |- *.
  pose proof (GetNode_time_point_length (child e) t s1) as Hc.
  destruct (GetNode (child e) t s1) as [children s2]. simpl in Hc |- *.
  split; [reflexivity|]. split; [|split].
  - intros n. rewrite !list_elem_of_In. apply filter_In.
  - intros n. rewrite !list_elem_of_In. apply filter_In.
  - intros Htp. specialize (Hp Htp). specialize (Hc Htp).
    pose proof (filter_length_le (fun n => MatchMetadata n pm) parents).
    pose proof (filter_length_le (fun n => MatchMetadata n cm) children).
    lia.
Qed.

End SearchResults.

Section RequestsOfQueries.
Context `{Platform} `{!GraphPackage} {C : Type} `{!ElasticSearchClientInterface C}.
Implicit Types s : State (Recorder C).
Local Open Scope string_scope.
Local Open Scope list_scope.

Lemma Query_requests obj tsq index s :
  exists tf f mf out err,
    trace (snd (Query obj tsq index s)) =
    trace s ++ searchRequests obj tsq index tf f mf out err.
Proof.
  unfold Query, bind.
  pose proof (trace_FormatFilter (TimeFilter tsq) "" s) as H1. cbv zeta in H1.
  destruct (call (FormatFilter (TimeFilter tsq) "") s) as [tf s1]. simpl in H1.
  pose proof (trace_FormatFilter (sqFilter (tsqSearchQuery tsq)) "" s1) as H2.
  cbv zeta in H2.
  destruct (call (FormatFilter (sqFilter (tsqSearchQuery tsq)) "") s1) as [f s2].
  simpl in H2.
  pose proof (trace_FormatFilter (MetadataFilter tsq) "Metadata" s2) as H3.
  cbv zeta in H3.
  destruct (call (FormatFilter (MetadataFilter tsq) "Metadata") s2) as [mf s3].
  simpl in H3.
  exists tf, f, mf.
  assert (forall q, q = {| mustClauses := omap id [tf; f; mf] |} ->
            exists out err,
              trace (snd (call (Search obj q index (tsqSearchQuery tsq)) s3)) =
              trace s ++ searchRequests obj tsq index tf f mf out err) as Hq.
  { intros q ->.
    pose proof (trace_Search obj {| mustClauses := omap id [tf; f; mf] |} index
                  (tsqSearchQuery tsq) s3) as H4. cbv zeta in H4.
    eexists _, _. rewrite H4, H3, H2, H1. unfold searchRequests.
    rewrite <- !app_assoc. reflexivity. }
  apply Hq. destruct tf, f, mf; reflexivity.
Qed.

Lemma searchNodes_client tsq index s :
  client (snd (searchNodes tsq index s)) = client (snd (Query "node" tsq index s)).
Proof.
  unfold searchNodes, bind.
  destruct (Query "node" tsq index s) as [[[out|] [err|]] s1]; cbn beta iota;
    try reflexivity.
  destruct (0 <? length (Hits out))%nat; [|reflexivity].
  rewrite searchNodesHits_spec. reflexivity.
Qed.

Lemma searchEdges_client tsq index s :
  client (snd (searchEdges tsq index s)) = client (snd (Query "edge" tsq index s)).
Proof.
  unfold searchEdges, bind.
  destruct (Query "edge" tsq index s) as [[[out|] [err|]] s1]; cbn beta iota;
    try reflexivity.
  destruct (0 <? length (Hits out))%nat; [|reflexivity].
  rewrite searchEdgesHits_spec. reflexivity.
Qed.

Lemma searchNodes_requests tsq index s :
  exists tf f mf out err,
    trace (snd (searchNodes tsq index s)) =
    trace s ++ searchRequests "node" tsq index tf f mf out err.
Proof.
  unfold trace at 1. rewrite searchNodes_client. apply Query_requests.
Qed.

Lemma searchEdges_requests tsq index s :
  exists tf f mf out err,
    trace (snd (searchEdges tsq index s)) =
    trace s ++ searchRequests "edge" tsq index tf f mf out err.
Proof.
  unfold trace at 1. rewrite searchEdges_client. apply Query_requests.
Qed.

(** The index step the query methods start with. *)
Lemma index_step_requests (t : GraphContext) s :
  let start := match ctxTimeSlice t with
               | None => call GetIndexAlias
               | Some _ => ret ""
               end s in
  exists alias,
    fst start = indexSearched t alias /\
    trace (snd start) = trace s ++ indexRequests t alias.
Proof.
  cbv zeta. unfold indexSearched, indexRequests. destruct (ctxTimeSlice t).
  - exists "". split; [reflexivity|]. simpl. rewrite app_nil_r. reflexivity.
  - exists (fst (call GetIndexAlias s)). split; [reflexivity|].
    apply trace_GetIndexAlias.
Qed.

(** What a lookup asks of the store.  [GetNode] and [GetEdge] make one
    search, of kind "node" or "edge", for the documents whose [ID] is the
    one looked up, within the time slice, without metadata filter, sorted
    by [Revision].  Without a time slice they first ask for the index
    alias and search that index; with one they search with the empty index
    name, that is all indices. *)
Theorem lookup_requests (i : Identifier) (t : GraphContext) (s : State (Recorder C)) :
  (exists alias tf f mf out err,
      trace (snd (GetNode i t s)) =
      trace s ++ indexRequests t alias ++
      searchRequests "node" (lookupQuery t i) (indexSearched t alias) tf f mf out err) /\
  (exists alias tf f mf out err,
      trace (snd (GetEdge i t s)) =
      trace s ++ indexRequests t alias ++
      searchRequests "edge" (lookupQuery t i) (indexSearched t alias) tf f mf out err).
Proof.
  pose proof (index_step_requests t s) as (alias & Hindex & Hstart). split.
  - unfold GetNode, bind.
    destruct (match ctxTimeSlice t with
              | None => call GetIndexAlias
              | Some _ => ret ""
              end s) as [index s1]. simpl in Hindex, Hstart. subst index.
    pose proof (searchNodes_requests (lookupQuery t i) (indexSearched t alias) s1)
      as (tf & f & mf & out & err & Hsearch).
    unfold lookupQuery in Hsearch at 1.
    destruct (searchNodes _ (indexSearched t alias) s1) as [nodes s2]. simpl in Hsearch.
    exists alias, tf, f, mf, out, err.
    assert (trace s2 = trace s ++ indexRequests t alias ++
              searchRequests "node" (lookupQuery t i) (indexSearched t alias)
                tf f mf out err) as Hs2.
    { rewrite Hsearch, Hstart, <- app_assoc. reflexivity. }
    destruct ((1 <? length nodes)%nat && TimePoint t);
      [destruct (nodes !! (length nodes - 1)%nat)|]; exact Hs2.
  - unfold GetEdge, bind.
    destruct (match ctxTimeSlice t with
              | None => call GetIndexAlias
              | Some _ => ret ""
              end s) as [index s1]. simpl in Hindex, Hstart. subst index.
    pose proof (searchEdges_requests (lookupQuery t i) (indexSearched t alias) s1)
      as (tf & f & mf & out & err & Hsearch).
    unfold lookupQuery in Hsearch at 1.
    destruct (searchEdges _ (indexSearched t alias) s1) as [edges s2]. simpl in Hsearch.
    exists alias, tf, f, mf, out, err.
    assert (trace s2 = trace s ++ indexRequests t alias ++
              searchRequests "edge" (lookupQuery t i) (indexSearched t alias)
                tf f mf out err) as Hs2.
    { rewrite Hsearch, Hstart, <- app_assoc. reflexivity. }
    destruct ((1 <? length edges)%nat && TimePoint t);
      [destruct (edges !! (length edges - 1)%nat)|]; exact Hs2.
Qed.

End RequestsOfQueries.

Section RequestsOfListings.
Context `{Platform} `{!GraphPackage} {C : Type} `{!ElasticSearchClientInterface C}.
Implicit Types s : State (Recorder C).
Local Open Scope string_scope.
Local Open Scope list_scope.

Lemma searchNodes_then_requests (tsq : TimedSearchQuery) (index : string)
    (post : list Node -> list Node) (cond : list Node -> bool) s :
  exists tf f mf out err,
    trace (snd (bind (searchNodes tsq index)
                     (fun nodes => if cond nodes then ret (post nodes) else ret nodes) s)) =
    trace s ++ searchRequests "node" tsq index tf f mf out err.
Proof.
  unfold bind.
  pose proof (searchNodes_requests tsq index s) as (tf & f & mf & out & err & Hs).
  destruct (searchNodes tsq index s) as [nodes s1].
  exists tf, f, mf, out, err. simpl in Hs. destruct (cond nodes); exact Hs.
Qed.

Lemma searchEdges_then_requests (tsq : TimedSearchQuery) (index : string)
    (post : list Edge -> list Edge) (cond : list Edge -> bool) s :
  exists tf f mf out err,
    trace (snd (bind (searchEdges tsq index)
                     (fun edges => if cond edges then ret (post edges) else ret edges) s)) =
    trace s ++ searchRequests "edge" tsq index tf f mf out err.
Proof.
  unfold bind.
  pose proof (searchEdges_requests tsq index s) as (tf & f & mf & out & err & Hs).
  destruct (searchEdges tsq index s) as [edges s1].
  exists tf, f, mf, out, err. simpl in Hs. destruct (cond edges); exact Hs.
Qed.

(** What a listing asks of the store, when its matcher is nil or gives a
    filter.  [GetNodes], [GetEdges] and [GetNodeEdges] make one search,
    within the time slice, with the matcher's filter on the metadata
    ([GetNodeEdges] also with the filter for the edges of the node).  The
    search is sorted by [UpdatedAt] exactly when the time-point flag is
    off: with the flag on, the search carries no sort.  The index is
    chosen as for the lookups. *)
Theorem listing_requests
    (t : GraphContext) (m : option GraphElementMatcher) (filter : option Filter)
    (n : Node) (s : State (Recorder C)) :
  matcherGives m filter ->
  (exists alias tf f mf out err,
      trace (snd (GetNodes t m s)) =
      trace s ++ indexRequests t alias ++
      searchRequests "node" (listingQuery t filter None) (indexSearched t alias)
        tf f mf out err) /\
  (exists alias tf f mf out err,
      trace (snd (GetEdges t m s)) =
      trace s ++ indexRequests t alias ++
      searchRequests "edge" (listingQuery t filter None) (indexSearched t alias)
        tf f mf out err) /\
  (exists alias tf f mf out err,
      trace (snd (GetNodeEdges n t m s)) =
      trace s ++ indexRequests t alias ++
      searchRequests "edge"
        (listingQuery t filter
           (Some (NewFilterForEdge (ID (nodeElement n)) (ID (nodeElement n)))))
        (indexSearched t alias) tf f mf out err).
Proof.
  intros Hm.
  assert (forall A (search : option Filter -> M (C:=Recorder C) (list A))
                 (none : M (C:=Recorder C) (list A)),
            match m with
            | Some m0 =>
                let (f, err) := matcherFilter m0 in
                match err with
                | Some _ => none
                | None => search f
                end
            | None => search None
            end = search filter) as Hmatch.
  { intros A search none. destruct m as [m0|]; simpl in Hm.
    - rewrite Hm. reflexivity.
    - subst filter. reflexivity. }
  unfold listingQuery.
  destruct (TimePoint t) eqn:Htp; (split; [|split]);
    unfold GetNodes, GetEdges, GetNodeEdges; unfold bind at 1;
    pose proof (index_step_requests t s) as (alias & Hindex & Hstart);
    cbv zeta in Hindex, Hstart;
    destruct (match ctxTimeSlice t with
              | None => call GetIndexAlias
              | Some _ => ret ""
              end s) as [index s1];
    simpl in Hindex, Hstart; subst index;
    cbv zeta; rewrite Hmatch, ?Htp.
  - destruct (searchNodes_then_requests
                {| tsqSearchQuery := zeroSearchQuery;
                   TimeFilter := getTimeFilter (ctxTimeSlice t);
                   MetadataFilter := filter |}
                (indexSearched t alias) dedupNodes
                (fun nodes => (1 <? length nodes)%nat && true) s1)
      as (tf & f & mf & out & err & Hs).
    exists alias, tf, f, mf, out, err.
    etransitivity; [exact Hs|]. rewrite Hstart, <- app_assoc. reflexivity.
  - destruct (searchEdges_then_requests
                {| tsqSearchQuery := zeroSearchQuery;
                   TimeFilter := getTimeFilter (ctxTimeSlice t);
                   MetadataFilter := filter |}
                (indexSearched t alias) dedupEdges (fun _ => true) s1)
      as (tf & f & mf & out & err & Hs).
    exists alias, tf, f, mf, out, err.
    etransitivity; [exact Hs|]. rewrite Hstart, <- app_assoc. reflexivity.
  - destruct (searchEdges_then_requests
                {| tsqSearchQuery :=
                     {| sqFilter :=
                          Some (NewFilterForEdge (ID (nodeElement n)) (ID (nodeElement n)));
                        Sort := false; SortBy := "" |};
                   TimeFilter := getTimeFilter (ctxTimeSlice t);
                   MetadataFilter := filter |}
                (indexSearched t alias) dedupEdges
                (fun edges => (1 <? length edges)%nat && true) s1)
      as (tf & f & mf & out & err & Hs).
    exists alias, tf, f, mf, out, err.
    etransitivity; [exact Hs|]. rewrite Hstart, <- app_assoc. reflexivity.
  - destruct (searchNodes_then_requests
                {| tsqSearchQuery :=
                     {| sqFilter := None; Sort := true; SortBy := "UpdatedAt" |};
                   TimeFilter := getTimeFilter (ctxTimeSlice t);
                   MetadataFilter := filter |}
                (indexSearched t alias) dedupNodes
                (fun nodes => (1 <? length nodes)%nat && false) s1)
      as (tf & f & mf & out & err & Hs).
    exists alias, tf, f, mf, out, err.
    etransitivity; [exact Hs|]. rewrite Hstart, <- app_assoc. reflexivity.
  - destruct (searchEdges_then_requests
                {| tsqSearchQuery :=
                     {| sqFilter := None; Sort := true; SortBy := "UpdatedAt" |};
                   TimeFilter := getTimeFilter (ctxTimeSlice t);
                   MetadataFilter := filter |}
                (indexSearched t alias) dedupEdges (fun _ => false) s1)
      as (tf & f & mf & out & err & Hs).
    exists alias, tf, f, mf, out, err.
    etransitivity; [exact Hs|]. rewrite Hstart, <- app_assoc. reflexivity.
  - destruct (searchEdges_then_requests
                {| tsqSearchQuery :=
                     {| sqFilter :=
                          Some (NewFilterForEdge (ID (nodeElement n)) (ID (nodeElement n)));
                        Sort := true; SortBy := "UpdatedAt" |};
                   TimeFilter := getTimeFilter (ctxTimeSlice t);
                   MetadataFilter := filter |}
                (indexSearched t alias) dedupEdges
                (fun edges => (1 <? length edges)%nat && false) s1)
      as (tf & f & mf & out & err & Hs).
    exists alias, tf, f, mf, out, err.
    etransitivity; [exact Hs|]. rewrite Hstart, <- app_assoc. reflexivity.
Qed.

End RequestsOfListings.

(** A listing of the current nodes without matcher, time-point flag on:
    the request is the unsorted search of the index alias. *)
Lemma listing_requests_witness :
  exists alias tf f mf out err,
    trace (snd (GetNodes (fixture.now true) None fixture.threeRevisions)) =
    trace fixture.threeRevisions ++ [CallGetIndexAlias alias] ++
    searchRequests "node"
      {| tsqSearchQuery := zeroSearchQuery; TimeFilter := None; MetadataFilter := None |}
      alias tf f mf out err.
Proof.
  exact (proj1 (listing_requests (fixture.now true) None None (fixture.node "n1" 0 5)
                  fixture.threeRevisions eq_refl)).
Defined.

(** ** Writes *)

Section Writes.
Context `{Platform} `{!GraphPackage} {C : Type} `{!ElasticSearchClientInterface C}.
Implicit Types s : State (Recorder C).
Local Open Scope string_scope.
Local Open Scope list_scope.

Lemma createNodeWith_index_error roll (n : Node) s :
  let id := ID (nodeElement n) +:+ "-" +:+ FormatInt (revision (nodeElement n)) in
  let r := call (BulkIndex "node" id (mapNode n)) s in
  snd (fst r) <> None ->
  exists err,
    snd (fst r) = Some err /\
    createNodeWith roll n s =
      Some (false, snd (Errorf "Error while adding node %s: %s"
                          [LStr (ID (nodeElement n)); LStr err] (snd r))).
Proof.
  cbv zeta. intros Herr. unfold createNodeWith, bindF, lift.
  destruct (call _ s) as [[shouldRoll [err|]] s1]; simpl in Herr; [|congruence].
  exists err. split; reflexivity.
Qed.

Lemma createEdgeWith_index_error roll (e : Edge) s :
  let id := ID (edgeElement e) +:+ "-" +:+ FormatInt (revision (edgeElement e)) in
  let r := call (BulkIndex "edge" id (mapEdge e)) s in
  snd (fst r) <> None ->
  exists err,
    snd (fst r) = Some err /\
    createEdgeWith roll e s =
      Some (false, snd (Errorf "Error while adding edge %s: %s"
                          [LStr (ID (edgeElement e)); LStr err] (snd r))).
Proof.
  cbv zeta. intros Herr. unfold createEdgeWith, bindF, lift.
  destruct (call _ s) as [[shouldRoll [err|]] s1]; simpl in Herr; [|congruence].
  exists err. split; reflexivity.
Qed.

(** When the store refuses the document, [createNode] and [createEdge]
    return false whatever the fuel (no rollover is started): the refused
    [BulkIndex] is the only call made, the tracker is left as it was, and
    one error is logged. *)
Theorem create_refused_by_the_store (fuel : nat) (n : Node) (e : Edge)
    (s : State (Recorder C)) :
  (snd (fst (call (BulkIndex "node"
                     (ID (nodeElement n) +:+ "-" +:+ FormatInt (revision (nodeElement n)))
                     (mapNode n)) s)) <> None ->
   outcome (createNode fuel n s) = Some false /\
   prevRevision (finalState s (createNode fuel n s)) = prevRevision s /\
   (exists shouldRoll err,
       trace (finalState s (createNode fuel n s)) =
       trace s ++
       [CallBulkIndex "node"
          (ID (nodeElement n) +:+ "-" +:+ FormatInt (revision (nodeElement n)))
          (mapNode n) shouldRoll (Some err)]) /\
   length (logged (finalState s (createNode fuel n s))) = S (length (logged s))) /\
  (snd (fst (call (BulkIndex "edge"
                     (ID (edgeElement e) +:+ "-" +:+ FormatInt (revision (edgeElement e)))
                     (mapEdge e)) s)) <> None ->
   outcome (createEdge fuel e s) = Some false /\
   prevRevision (finalState s (createEdge fuel e s)) = prevRevision s /\
   (exists shouldRoll err,
       trace (finalState s (createEdge fuel e s)) =
       trace s ++
       [CallBulkIndex "edge"
          (ID (edgeElement e) +:+ "-" +:+ FormatInt (revision (edgeElement e)))
          (mapEdge e) shouldRoll (Some err)]) /\
   length (logged (finalState s (createEdge fuel e s))) = S (length (logged s))).
Proof.
  split; intros Herr.
  - destruct (createNodeWith_index_error (rollAndDumpTopology fuel) n s Herr)
      as (err & Hsome & Hcreate).
    unfold createNode. rewrite Hcreate.
    pose proof (trace_BulkIndex "node"
                  (ID (nodeElement n) +:+ "-" +:+ FormatInt (revision (nodeElement n)))
                  (mapNode n) s) as Htr. cbv zeta in Htr.
    pose proof (call_keeps_tracker_and_log
                  (BulkIndex "node"
                     (ID (nodeElement n) +:+ "-" +:+ FormatInt (revision (nodeElement n)))
                     (mapNode n)) s) as (Hpr & Hlog & _).
    destruct (call _ s) as [[shouldRoll e0] s1]. simpl in Hsome, Htr, Hpr, Hlog |- *.
    subst e0. split; [reflexivity|]. split; [exact Hpr|]. split.
    + exists shouldRoll, err. exact Htr.
    + rewrite length_app, Hlog. simpl. lia.
  - destruct (createEdgeWith_index_error (rollAndDumpTopology fuel) e s Herr)
      as (err & Hsome & Hcreate).
    unfold createEdge. rewrite Hcreate.
    pose proof (trace_BulkIndex "edge"
                  (ID (edgeElement e) +:+ "-" +:+ FormatInt (revision (edgeElement e)))
                  (mapEdge e) s) as Htr. cbv zeta in Htr.
    pose proof (call_keeps_tracker_and_log
                  (BulkIndex "edge"
                     (ID (edgeElement e) +:+ "-" +:+ FormatInt (revision (edgeElement e)))
                     (mapEdge e)) s) as (Hpr & Hlog & _).
    destruct (call _ s) as [[shouldRoll e0] s1]. simpl in Hsome, Htr, Hpr, Hlog |- *.
    subst e0. split; [reflexivity|]. split; [exact Hpr|]. split.
    + exists shouldRoll, err. exact Htr.
    + rewrite length_app, Hlog. simpl. lia.
Qed.

Lemma createNodeWith_no_roll roll (n : Node) s :
  let id := ID (nodeElement n) +:+ "-" +:+ FormatInt (revision (nodeElement n)) in
  let r := call (BulkIndex "node" id (mapNode n)) s in
  fst r = (false, None) ->
  createNodeWith roll n s =
    Some (true, snd (storeRevision (ID (nodeElement n)) (revision (nodeElement n)) (snd r))).
Proof.
  cbv zeta. intros Hok. unfold createNodeWith, bindF, lift.
  destruct (call _ s) as [[shouldRoll err] s1]. simpl in Hok. inversion Hok; subst.
  reflexivity.
Qed.

Lemma createEdgeWith_no_roll roll (e : Edge) s :
  let id := ID (edgeElement e) +:+ "-" +:+ FormatInt (revision (edgeElement e)) in
  let r := call (BulkIndex "edge" id (mapEdge e)) s in
  fst r = (false, None) ->
  createEdgeWith roll e s =
    Some (true, snd (storeRevision (ID (edgeElement e)) (revision (edgeElement e)) (snd r))).
Proof.
  cbv zeta. intros Hok. unfold createEdgeWith, bindF, lift.
  destruct (call _ s) as [[shouldRoll err] s1]. simpl in Hok. inversion Hok; subst.
  reflexivity.
Qed.

(** When the store accepts the document and asks for no rollover,
    [createNode] returns true whatever the fuel, having made that one
    call, and the tracker maps the ID to the revision written.  An
    [updateTimes] that follows, for a node with the same ID, archives
    exactly the document just written, [<ID>-<that revision>], at the
    [updatedAt] of the node it is given. *)
Theorem create_then_archive (fuel : nat) (n n' : Node) (s : State (Recorder C)) :
  fst (call (BulkIndex "node"
               (ID (nodeElement n) +:+ "-" +:+ FormatInt (revision (nodeElement n)))
               (mapNode n)) s) = (false, None) ->
  ID (nodeElement n') = ID (nodeElement n) ->
  let s1 := finalState s (createNode fuel n s) in
  outcome (createNode fuel n s) = Some true /\
  prevRevision s1 =
    <[ID (nodeElement n) := revision (nodeElement n)]> (prevRevision s) /\
  trace s1 =
    trace s ++
    [CallBulkIndex "node"
       (ID (nodeElement n) +:+ "-" +:+ FormatInt (revision (nodeElement n)))
       (mapNode n) false None] /\
  exists err,
    trace (snd (updateTimes (INode n') s1)) =
    trace s1 ++
    [CallBulkUpdateWithPartialDoc "node"
       (ID (nodeElement n) +:+ "-" +:+ FormatInt (revision (nodeElement n)))
       (<["ArchivedAt" := VInt64 (UnixMillis (updatedAt (nodeElement n')))]> ∅) err].
Proof.
  intros Hok Hid. cbv zeta. unfold createNode.
  rewrite (createNodeWith_no_roll (rollAndDumpTopology fuel) n s Hok).
  pose proof (trace_BulkIndex "node"
                (ID (nodeElement n) +:+ "-" +:+ FormatInt (revision (nodeElement n)))
                (mapNode n) s) as Htr. cbv zeta in Htr.
  pose proof (call_keeps_tracker_and_log
                (BulkIndex "node"
                   (ID (nodeElement n) +:+ "-" +:+ FormatInt (revision (nodeElement n)))
                   (mapNode n)) s) as (Hpr & _ & _).
  destruct (call _ s) as [[shouldRoll e0] s1]. simpl in Hok, Htr, Hpr.
  inversion Hok; subst shouldRoll e0. unfold outcome, finalState, storeRevision. simpl.
  split; [reflexivity|]. split; [rewrite Hpr; reflexivity|]. split; [exact Htr|].
  match goal with |- context [updateTimes _ ?st] => set (s2 := st) end.
  assert (prevRevision s2 !! ID (nodeElement n') = Some (revision (nodeElement n)))
    as Hknown.
  { subst s2. simpl. rewrite Hid. apply lookup_insert_eq. }
  rewrite (updateTimes_known (INode n') (nodeElement n') s2 _ eq_refl Hknown).
  cbv zeta.
  pose proof (trace_BulkUpdateWithPartialDoc "node"
                (ID (nodeElement n') +:+ "-" +:+ FormatInt (revision (nodeElement n)))
                (<["ArchivedAt" := VInt64 (UnixMillis (updatedAt (nodeElement n')))]> ∅)
                s2) as Hup. cbv zeta in Hup.
  simpl kindOf.
  destruct (call _ s2) as [[err|] s3]; simpl in Hup |- *; rewrite Hid in Hup;
    eexists; exact Hup.
Qed.

(** [MetadataUpdated] given a value that is neither a node nor an edge:
    the type switches fall through, so the store is asked for a partial
    update with the empty kind, the empty document ID and no field; the
    result is true exactly when that call returned no error, and nothing
    is created. *)
Theorem MetadataUpdated_of_another_type (fuel : nat) (s : State (Recorder C)) :
  exists err,
    outcome (MetadataUpdated fuel IOther s) = Some (bool_decide (err = None)) /\
    trace (finalState s (MetadataUpdated fuel IOther s)) =
      trace s ++ [CallBulkUpdateWithPartialDoc "" "" ∅ err] /\
    prevRevision (finalState s (MetadataUpdated fuel IOther s)) = prevRevision s.
Proof.
  unfold MetadataUpdated, bindF, lift, updateTimes, bind. simpl.
  pose proof (trace_BulkUpdateWithPartialDoc "" "" ∅ s) as Htr. cbv zeta in Htr.
  pose proof (call_keeps_tracker_and_log (BulkUpdateWithPartialDoc "" "" ∅) s)
    as (Hpr & _ & _).
  destruct (call _ s) as [[err|] s1]; simpl in *.
  - exists (Some err). rewrite bool_decide_eq_false_2 by discriminate. auto.
  - exists None. auto.
Qed.

(** Once an element is deleted it cannot be updated: after [NodeDeleted]
    or [EdgeDeleted], [updateTimes] for an element with the same ID
    returns false without asking anything of the store, and
    [MetadataUpdated] returns false. *)
Theorem deleted_elements_cannot_be_updated
    (fuel : nat) (n : Node) (e : Edge) (i : element) (ge : graphElement)
    (s : State (Recorder C)) :
  elementOf i = Some ge ->
  (ID ge = ID (nodeElement n) ->
   let s1 := snd (NodeDeleted n s) in
   fst (updateTimes i s1) = false /\
   trace (snd (updateTimes i s1)) = trace s1 /\
   outcome (MetadataUpdated fuel i s1) = Some false) /\
  (ID ge = ID (edgeElement e) ->
   let s1 := snd (EdgeDeleted e s) in
   fst (updateTimes i s1) = false /\
   trace (snd (updateTimes i s1)) = trace s1 /\
   outcome (MetadataUpdated fuel i s1) = Some false).
Proof.
  intros Hge.
  assert (forall s1 : State (Recorder C), prevRevision s1 !! ID ge = None ->
            fst (updateTimes i s1) = false /\
            trace (snd (updateTimes i s1)) = trace s1 /\
            outcome (MetadataUpdated fuel i s1) = Some false) as Hmiss.
  { intros s1 Hnone. unfold MetadataUpdated, bindF, lift.
    rewrite (updateTimes_unknown i ge s1 Hge Hnone). simpl. auto. }
  split; intros Hid; cbv zeta; apply Hmiss.
  - unfold NodeDeleted, bind, deleteRevision.
    match goal with |- context [call ?m ?st] =>
      pose proof (call_keeps_tracker_and_log m st) as (Hpr & _ & _);
      destruct (call m st) as [[err|] s2] end; simpl in Hpr |- *;
      rewrite Hpr, Hid; apply lookup_delete_eq.
  - unfold EdgeDeleted, bind, deleteRevision.
    match goal with |- context [call ?m ?st] =>
      pose proof (call_keeps_tracker_and_log m st) as (Hpr & _ & _);
      destruct (call m st) as [[err|] s2] end; simpl in Hpr |- *;
      rewrite Hpr, Hid; apply lookup_delete_eq.
Qed.

(** A backend fresh from [NewElasticSearchBackendFromClient] (the
    constructor starts the client and never fails) knows no revision:
    until an element is added again, [MetadataUpdated] for any node or
    edge returns false and asks nothing of the store. *)
Theorem fresh_backend_cannot_update
    (Start : Recorder C -> Recorder C) (client0 : Recorder C) (reads : nat)
    (log : list LogRecord) (fuel : nat) (i : element) (ge : graphElement) :
  elementOf i = Some ge ->
  let s0 := fst (NewElasticSearchBackendFromClient Start client0 reads log) in
  snd (NewElasticSearchBackendFromClient Start client0 reads log) = None /\
  client s0 = Start client0 /\
  prevRevision s0 = ∅ /\
  outcome (MetadataUpdated fuel i s0) = Some false /\
  trace (finalState s0 (MetadataUpdated fuel i s0)) = calls (Start client0).
Proof.
  intros Hge. cbv zeta. simpl.
  split; [reflexivity|]. split; [reflexivity|]. split; [reflexivity|].
  unfold MetadataUpdated, bindF, lift.
  rewrite (updateTimes_unknown i ge _ Hge (lookup_empty _)). simpl. auto.
Qed.

End Writes.

(** ** Rollover steps and the tracker *)

Section RolloverSteps.
Context `{Platform} `{!GraphPackage} {C : Type} `{!ElasticSearchClientInterface C}.
Implicit Types s : State C.
Local Open Scope string_scope.
Local Open Scope list_scope.

Lemma updateTimes_keeps_clock i s : clockReads (snd (updateTimes i s)) = clockReads s.
Proof.
  apply (preserves_updateTimes (fun s s' => clockReads s' = clockReads s)).
  - reflexivity.
  - intros s1 s2 s3 H12 H23. congruence.
  - intros lvl format args s1. reflexivity.
  - intros kind id obj s1. unfold call. destruct (BulkUpdateWithPartialDoc _ _ _ _).
    reflexivity.
Qed.

Lemma archiveNodes_cons node nodes s :
  let stamped := {| nodeElement := setUpdatedAt (wallClock (clockReads s)) (nodeElement node) |} in
  let s1 := snd (updateTimes (INode stamped) (snd (timeNow s))) in
  archiveNodes (node :: nodes) s =
  (stamped :: fst (archiveNodes nodes s1), snd (archiveNodes nodes s1)).
Proof.
  cbv zeta. simpl. unfold bind, timeNow. cbn beta iota.
  destruct (updateTimes _ _) as [ok s1]. simpl.
  destruct (archiveNodes nodes s1) as [rest s2]. reflexivity.
Qed.

Lemma archiveEdges_cons edge edges s :
  let stamped := {| edgeElement := setUpdatedAt (wallClock (clockReads s)) (edgeElement edge);
                    parent := parent edge; child := child edge |} in
  let s1 := snd (updateTimes (IEdge stamped) (snd (timeNow s))) in
  archiveEdges (edge :: edges) s =
  (stamped :: fst (archiveEdges edges s1), snd (archiveEdges edges s1)).
Proof.
  cbv zeta. simpl. unfold bind, timeNow. cbn beta iota.
  destruct (updateTimes _ _) as [ok s1]. simpl.
  destruct (archiveEdges edges s1) as [rest s2]. reflexivity.
Qed.

(** The archival loops of the rollover stamp each fetched element with a
    reading of the clock, one reading per element and in the order of the
    list, and change nothing else of it: the elements that the rollover
    goes on to re-create have their ID, revision, metadata, host and
    creation and deletion times (and an edge its parent and child) as
    fetched.  The tracker is left as it was. *)
Theorem archival_stamps_and_keeps_the_elements
    (nodes : list Node) (edges : list Edge) (s : State C) :
  (let r := archiveNodes nodes s in
   map (fun n => withoutUpdatedAt (nodeElement n)) (fst r) =
     map (fun n => withoutUpdatedAt (nodeElement n)) nodes /\
   map (fun n => updatedAt (nodeElement n)) (fst r) =
     map wallClock (seq (clockReads s) (length nodes)) /\
   clockReads (snd r) = (clockReads s + length nodes)%nat /\
   prevRevision (snd r) = prevRevision s) /\
  (let r := archiveEdges edges s in
   map (fun e => (withoutUpdatedAt (edgeElement e), parent e, child e)) (fst r) =
     map (fun e => (withoutUpdatedAt (edgeElement e), parent e, child e)) edges /\
   map (fun e => updatedAt (edgeElement e)) (fst r) =
     map wallClock (seq (clockReads s) (length edges)) /\
   clockReads (snd r) = (clockReads s + length edges)%nat /\
   prevRevision (snd r) = prevRevision s).
Proof.
  split; cbv zeta.
  - revert s. induction nodes as [|node nodes IH]; intros s.
    + simpl. repeat split; try reflexivity. lia.
    + rewrite archiveNodes_cons. cbv zeta.
      match goal with |- context [updateTimes ?i ?st] =>
        pose proof (updateTimes_keeps_clock i st) as Hclock;
        pose proof (updateTimes_keeps_tracker i st) as Htracker;
        destruct (updateTimes i st) as [ok s1] end.
      simpl in Hclock, Htracker.
      destruct (IH s1) as (Hkeep & Hstamp & Hreads & Hprev).
      cbn [fst snd map length seq].
      rewrite Hkeep, Hstamp, Hreads, Hprev, Hclock, Htracker.
      repeat split; try reflexivity. lia.
  - revert s. induction edges as [|edge edges IH]; intros s.
    + simpl. repeat split; try reflexivity. lia.
    + rewrite archiveEdges_cons. cbv zeta.
      match goal with |- context [updateTimes ?i ?st] =>
        pose proof (updateTimes_keeps_clock i st) as Hclock;
        pose proof (updateTimes_keeps_tracker i st) as Htracker;
        destruct (updateTimes i st) as [ok s1] end.
      simpl in Hclock, Htracker.
      destruct (IH s1) as (Hkeep & Hstamp & Hreads & Hprev).
      cbn [fst snd map length seq].
      rewrite Hkeep, Hstamp, Hreads, Hprev, Hclock, Htracker.
      repeat split; try reflexivity. lia.
Qed.

Lemma trackerGrows_refl s : trackerGrows s s.
Proof. unfold trackerGrows. reflexivity. Qed.

Lemma trackerGrows_trans s1 s2 s3 :
  trackerGrows s1 s2 -> trackerGrows s2 s3 -> trackerGrows s1 s3.
Proof. unfold trackerGrows. intros H12 H23. etransitivity; eassumption. Qed.

Lemma trackerGrows_call {A} (method : C -> A * C) : preserves trackerGrows (call method).
Proof.
  intros s. unfold trackerGrows, call. destruct (method (client s)). reflexivity.
Qed.

Lemma trackerGrows_logf lvl format args :
  preserves (C:=C) trackerGrows (logf lvl format args).
Proof. intros s. unfold trackerGrows. reflexivity. Qed.

Lemma trackerGrows_timeNow : preserves (C:=C) trackerGrows timeNow.
Proof. intros s. unfold trackerGrows. reflexivity. Qed.

Lemma trackerGrows_storeRevision id rev :
  preserves (C:=C) trackerGrows (storeRevision id rev).
Proof.
  intros s. unfold trackerGrows. simpl. rewrite dom_insert_L. set_solver.
Qed.

Lemma rollAndDumpTopology_trackerGrows fuel :
  preservesF (C:=C) trackerGrows (rollAndDumpTopology fuel).
Proof.
  apply (preservesF_rollAndDumpTopology trackerGrows trackerGrows_refl trackerGrows_trans
           trackerGrows_logf trackerGrows_timeNow
           (fun f prefix => trackerGrows_call _)
           (fun obj q index sq => trackerGrows_call _)
           (trackerGrows_call _)
           (fun kind id obj => trackerGrows_call _)
           (fun kind id obj => trackerGrows_call _)
           (trackerGrows_call _)
           trackerGrows_storeRevision).
Qed.

Lemma createNodeWith_true_tracked roll (n : Node) s s' :
  preservesF trackerGrows roll ->
  createNodeWith roll n s = Some (true, s') ->
  ID (nodeElement n) ∈ dom (prevRevision s').
Proof.
  intros Hroll Hcreate. unfold createNodeWith in Hcreate.
  unfold bindF at 1, lift at 1 in Hcreate.
  destruct (call _ s) as [[shouldRoll [err|]] s1]; [discriminate|].
  cbn beta iota in Hcreate.
  unfold bindF at 1, lift at 1, storeRevision in Hcreate. cbn beta iota in Hcreate.
  destruct shouldRoll.
  - unfold bindF at 1 in Hcreate.
    match type of Hcreate with context [roll ?s2] =>
      destruct (roll s2) as [[[err|] s3]|] eqn:Hr; [discriminate| |discriminate] end.
    apply Hroll in Hr. inversion Hcreate; subst s'. apply Hr. simpl.
    rewrite dom_insert_L. set_solver.
  - inversion Hcreate; subst s'. simpl. rewrite dom_insert_L. set_solver.
Qed.

Lemma createEdgeWith_true_tracked roll (e : Edge) s s' :
  preservesF trackerGrows roll ->
  createEdgeWith roll e s = Some (true, s') ->
  ID (edgeElement e) ∈ dom (prevRevision s').
Proof.
  intros Hroll Hcreate. unfold createEdgeWith in Hcreate.
  unfold bindF at 1, lift at 1 in Hcreate.
  destruct (call _ s) as [[shouldRoll [err|]] s1]; [discriminate|].
  cbn beta iota in Hcreate.
  unfold bindF at 1, lift at 1, storeRevision in Hcreate. cbn beta iota in Hcreate.
  destruct shouldRoll.
  - unfold bindF at 1 in Hcreate.
    match type of Hcreate with context [roll ?s2] =>
      destruct (roll s2) as [[[err|] s3]|] eqn:Hr; [discriminate| |discriminate] end.
    apply Hroll in Hr. inversion Hcreate; subst s'. apply Hr. simpl.
    rewrite dom_insert_L. set_solver.
  - inversion Hcreate; subst s'. simpl. rewrite dom_insert_L. set_solver.
Qed.

Lemma MetadataUpdated_trackerGrows fuel i :
  preservesF (C:=C) trackerGrows (MetadataUpdated fuel i).
Proof.
  unfold MetadataUpdated. apply (preservesF_bindF trackerGrows trackerGrows_trans).
  - apply (preservesF_lift trackerGrows).
    apply (preserves_updateTimes trackerGrows trackerGrows_refl trackerGrows_trans
             trackerGrows_logf (fun kind id obj => trackerGrows_call _)).
  - intros ok. destruct (negb ok); [apply (preservesF_retF trackerGrows trackerGrows_refl)|].
    destruct i as [n|e|].
    + apply (preservesF_bindF trackerGrows trackerGrows_trans).
      * apply (preservesF_createNodeWith trackerGrows trackerGrows_refl trackerGrows_trans
                 trackerGrows_logf (fun kind id obj => trackerGrows_call _)
                 trackerGrows_storeRevision).
        apply rollAndDumpTopology_trackerGrows.
      * intros b. apply (preservesF_retF trackerGrows trackerGrows_refl).
    + apply (preservesF_bindF trackerGrows trackerGrows_trans).
      * apply (preservesF_createEdgeWith trackerGrows trackerGrows_refl trackerGrows_trans
                 trackerGrows_logf (fun kind id obj => trackerGrows_call _)
                 trackerGrows_storeRevision).
        apply rollAndDumpTopology_trackerGrows.
      * intros b. apply (preservesF_retF trackerGrows trackerGrows_refl).
    + apply (preservesF_retF trackerGrows trackerGrows_refl).
Qed.

(** Adding, updating and rolling over never make the tracker forget an
    ID: every ID tracked before [NodeAdded], [EdgeAdded],
    [MetadataUpdated] or a rollover is tracked after it (only the deletion
    methods remove one).  And when [NodeAdded], [EdgeAdded] or
    [MetadataUpdated] returns true for a node or an edge, the ID of that
    element is tracked afterwards. *)
Theorem tracker_only_grows_outside_deletion
    (fuel : nat) (n : Node) (e : Edge) (i : element) (ge : graphElement) (s : State C) :
  trackerGrows s (finalState s (NodeAdded fuel n s)) /\
  trackerGrows s (finalState s (EdgeAdded fuel e s)) /\
  trackerGrows s (finalState s (MetadataUpdated fuel i s)) /\
  trackerGrows s (finalState s (rollAndDumpTopology fuel s)) /\
  (outcome (NodeAdded fuel n s) = Some true ->
   ID (nodeElement n) ∈ dom (prevRevision (finalState s (NodeAdded fuel n s)))) /\
  (outcome (EdgeAdded fuel e s) = Some true ->
   ID (edgeElement e) ∈ dom (prevRevision (finalState s (EdgeAdded fuel e s)))) /\
  (elementOf i = Some ge -> outcome (MetadataUpdated fuel i s) = Some true ->
   ID ge ∈ dom (prevRevision (finalState s (MetadataUpdated fuel i s)))).
Proof.
  assert (forall A (m : F (C:=C) A), preservesF trackerGrows m ->
            trackerGrows s (finalState s (m s))) as Hfinal.
  { intros A m Hm. destruct (m s) as [[a s']|] eqn:Hms; simpl.
    - eapply Hm. exact Hms.
    - apply trackerGrows_refl. }
  assert (forall n0, preservesF (C:=C) trackerGrows (createNode fuel n0)) as Hnode.
  { intros n0.
    apply (preservesF_createNodeWith trackerGrows trackerGrows_refl trackerGrows_trans
             trackerGrows_logf (fun kind id obj => trackerGrows_call _)
             trackerGrows_storeRevision).
    apply rollAndDumpTopology_trackerGrows. }
  assert (forall e0, preservesF (C:=C) trackerGrows (createEdge fuel e0)) as Hedge.
  { intros e0.
    apply (preservesF_createEdgeWith trackerGrows trackerGrows_refl trackerGrows_trans
             trackerGrows_logf (fun kind id obj => trackerGrows_call _)
             trackerGrows_storeRevision).
    apply rollAndDumpTopology_trackerGrows. }
  refine (conj _ (conj _ (conj _ (conj _ (conj _ (conj _ _)))))).
  - apply Hfinal, Hnode.
  - apply Hfinal, Hedge.
  - apply Hfinal, MetadataUpdated_trackerGrows.
  - apply Hfinal, rollAndDumpTopology_trackerGrows.
  - unfold NodeAdded, createNode.
    destruct (createNodeWith _ n s) as [[b s']|] eqn:Hc; simpl; [|discriminate].
    intros Hb. inversion Hb; subst b.
    eapply createNodeWith_true_tracked; [apply rollAndDumpTopology_trackerGrows | exact Hc].
  - unfold EdgeAdded, createEdge.
    destruct (createEdgeWith _ e s) as [[b s']|] eqn:Hc; simpl; [|discriminate].
    intros Hb. inversion Hb; subst b.
    eapply createEdgeWith_true_tracked; [apply rollAndDumpTopology_trackerGrows | exact Hc].
  - intros Hge. unfold MetadataUpdated, bindF, lift.
    destruct (updateTimes i s) as [ok s1]. destruct ok; simpl; [|discriminate].
    destruct i as [n0|e0|]; inversion Hge; subst ge.
    + unfold createNode.
      destruct (createNodeWith _ n0 s1) as [[b s']|] eqn:Hc; simpl; [|discriminate].
      intros Hb. inversion Hb; subst b.
      eapply createNodeWith_true_tracked; [apply rollAndDumpTopology_trackerGrows | exact Hc].
    + unfold createEdge.
      destruct (createEdgeWith _ e0 s1) as [[b s']|] eqn:Hc; simpl; [|discriminate].
      intros Hb. inversion Hb; subst b.
      eapply createEdgeWith_true_tracked; [apply rollAndDumpTopology_trackerGrows | exact Hc].
Qed.

End RolloverSteps.

(** ** Documents and single reads *)

Section Documents.
Context `{Platform} `{!GraphPackage} {C : Type} `{!ElasticSearchClientInterface C}.
Implicit Types s : State C.
Local Open Scope string_scope.
Local Open Scope list_scope.

Lemma mapElement_lookup (ge : graphElement) (k : string) :
  mapElement ge !! k =
    if String.eqb k "DeletedAt" then
      if IsZero (deletedAt ge) then None else Some (VInt64 (UnixMillis (deletedAt ge)))
    else if String.eqb k "ID" then Some (VString (ID ge))
    else if String.eqb k "Host" then Some (VString (host ge))
    else if String.eqb k "CreatedAt" then Some (VInt64 (UnixMillis (createdAt ge)))
    else if String.eqb k "UpdatedAt" then Some (VInt64 (UnixMillis (updatedAt ge)))
    else if String.eqb k "Metadata" then Some (VMetadata (Clone (metadata ge)))
    else if String.eqb k "Revision" then Some (VInt64 (revision ge))
    else None.
Proof.
  unfold mapElement.
  repeat match goal with
         | |- context [String.eqb k ?c] =>
             destruct (String.eqb_spec k c) as [->|?]
         end;
    destruct (IsZero (deletedAt ge)); simpl;
    repeat first [ rewrite lookup_insert_eq; reflexivity
                 | rewrite lookup_insert_ne by congruence
                 | apply lookup_empty ].
Qed.

(** The document of an element holds [ID], [Host], [CreatedAt],
    [UpdatedAt], [Metadata] (the clone) and [Revision], holds [DeletedAt]
    exactly when the deletion time is not the zero time, and holds no
    other field; times are in milliseconds.  The document of an edge is
    that of its element with, in addition, [Parent] and [Child]. *)
Theorem documents_hold_the_element (ge : graphElement) (e : Edge) :
  mapElement ge !! "ID" = Some (VString (ID ge)) /\
  mapElement ge !! "Host" = Some (VString (host ge)) /\
  mapElement ge !! "CreatedAt" = Some (VInt64 (UnixMillis (createdAt ge))) /\
  mapElement ge !! "UpdatedAt" = Some (VInt64 (UnixMillis (updatedAt ge))) /\
  mapElement ge !! "Metadata" = Some (VMetadata (Clone (metadata ge))) /\
  mapElement ge !! "Revision" = Some (VInt64 (revision ge)) /\
  mapElement ge !! "DeletedAt" =
    (if IsZero (deletedAt ge) then None
     else Some (VInt64 (UnixMillis (deletedAt ge)))) /\
  (forall k, k ∉ ["ID"; "Host"; "CreatedAt"; "UpdatedAt"; "Metadata"; "Revision";
                  "DeletedAt"] -> mapElement ge !! k = None) /\
  mapEdge e !! "Parent" = Some (VIdentifier (parent e)) /\
  mapEdge e !! "Child" = Some (VIdentifier (child e)) /\
  (forall k, k <> "Parent" -> k <> "Child" ->
             mapEdge e !! k = mapElement (edgeElement e) !! k).
Proof.
  repeat match goal with |- _ /\ _ => split end;
    try (rewrite mapElement_lookup; reflexivity).
  - intros k Hk. rewrite mapElement_lookup.
    repeat match goal with
           | |- context [String.eqb k ?c] =>
               destruct (String.eqb_spec k c) as [->|?]
           end; try reflexivity; exfalso; apply Hk; set_solver.
  - unfold mapEdge. rewrite lookup_insert_ne by discriminate. apply lookup_insert_eq.
  - unfold mapEdge. apply lookup_insert_eq.
  - intros k Hp Hc. unfold mapEdge.
    rewrite !lookup_insert_ne by congruence. reflexivity.
Qed.

Variable Get : string -> string -> C -> (GetResult * option error) * C.

(** [getElement] succeeds only on a document that was found and decoded:
    an error of the client's [Get] is returned as it is and a document
    that is not found gives the error "No object found <id>", both
    leaving the element untouched; for a found document the element and
    the error are those of the decoding ([hitToNode] for a node,
    [hitToEdge] for an edge); a value that is neither gives "No object
    found" as well.  The tracker is not involved. *)
Theorem getElement_reads_one_document
    (kind : string) (i : Identifier) (elem : element) (s : State C) :
  let answer := fst (call (Get kind i) s) in
  let r := getElement Get kind i elem s in
  snd r = snd (call (Get kind i) s) /\
  prevRevision (snd r) = prevRevision s /\
  match snd answer with
  | Some err => fst r = (elem, Some err)
  | None =>
      if Found (fst answer) then
        match elem with
        | INode n =>
            fst r = (INode (fst (hitToNode (getSource (fst answer)) n)),
                     snd (hitToNode (getSource (fst answer)) n))
        | IEdge e =>
            fst r = (IEdge (fst (hitToEdge (getSource (fst answer)) e)),
                     snd (hitToEdge (getSource (fst answer)) e))
        | IOther => fst r = (elem, Some ("No object found " +:+ i))
        end
      else fst r = (elem, Some ("No object found " +:+ i))
  end /\
  (snd (fst r) = None ->
   snd answer = None /\ Found (fst answer) = true /\ elem <> IOther).
Proof.
  cbv zeta. unfold getElement, bind.
  pose proof (trackerKept_call (Get kind i) s) as Hpr. unfold trackerKept in Hpr.
  destruct (call (Get kind i) s) as [[resp [err|]] s1]; simpl in Hpr |- *.
  - repeat split; try assumption; try reflexivity; discriminate.
  - destruct (Found resp).
    + destruct elem as [n|e|].
      * destruct (hitToNode (getSource resp) n) as [n' err']. simpl.
        repeat split; try assumption; try reflexivity; discriminate.
      * destruct (hitToEdge (getSource resp) e) as [e' err']. simpl.
        repeat split; try assumption; try reflexivity; discriminate.
      * simpl. repeat split; try assumption; try reflexivity; discriminate.
    + simpl. repeat split; try assumption; try reflexivity; discriminate.
Qed.

End Documents.

(** ** The capture form *)

Section CaptureForm.
Local Open Scope string_scope.

Lemma truthy_nonempty (x : string) : captureForm.truthy x = true <-> x <> "".
Proof.
  unfold captureForm.truthy. destruct (String.eqb_spec x "") as [->|Hne]; simpl.
  - split; [discriminate | congruence].
  - split; [intros _; exact Hne | reflexivity].
Qed.

(** The form's [query] is defined exactly when [queryError] is not, and
    a defined query is never the empty string: in gremlin mode it is the
    text typed by the user, which [queryError] has made sure is not
    empty, and otherwise it is a traversal that starts from the first
    selected interface, with a shortest path to the second exactly when a
    second one is selected. *)
Theorem capture_query_is_defined_and_not_empty (this : captureForm.data) :
  (captureForm.query this = None <-> captureForm.queryError this <> None) /\
  (forall q, captureForm.query this = Some q -> q <> "") /\
  (captureForm.mode this = "gremlin" ->
   forall q, captureForm.query this = Some q -> q = captureForm.userQuery this) /\
  (captureForm.mode this <> "gremlin" ->
   forall q, captureForm.query this = Some q ->
     q = if captureForm.truthy (captureForm.node2 this)
         then ("G.V().Has('TID', '" +:+ captureForm.node1 this +:+ "')") +:+
              ".ShortestPathTo(Metadata('TID', '" +:+ captureForm.node2 this +:+
              "'), Metadata('RelationType', 'layer2'))"
         else "G.V().Has('TID', '" +:+ captureForm.node1 this +:+ "')").
Proof.
  unfold captureForm.query, captureForm.queryError.
  destruct (String.eqb_spec (captureForm.mode this) "gremlin") as [Hg|Hg];
    destruct (captureForm.truthy (captureForm.userQuery this)) eqn:Hu;
    destruct (String.eqb (captureForm.mode this) "selection");
    destruct (captureForm.truthy (captureForm.node1 this));
    destruct (captureForm.truthy (captureForm.node2 this));
    simpl;
    (split; [split; [try discriminate; intros _; discriminate
                    | intros Hne; try reflexivity; exfalso; apply Hne; reflexivity]
            |split; [intros q Hq; try discriminate; inversion Hq; subst;
                     first [apply truthy_nonempty; exact Hu | discriminate]
                    |split; [intros Hm q Hq; try discriminate; try contradiction;
                             inversion Hq; reflexivity
                            |intros Hm q Hq; try discriminate; try contradiction;
                             inversion Hq; reflexivity]]]).
Qed.

End CaptureForm.

(** ** Runs that exercise the further properties *)

Lemma create_refused_by_the_store_witness :
  outcome (createNode 0 (fixture.node "n1" 0 5)
             (fixture.backend
                (fixture.script [(false, Some "index closed"%string)] [] [] []) ∅))
  = Some false.
Proof.
  apply (proj1 (create_refused_by_the_store 0 (fixture.node "n1" 0 5)
                  (fixture.edge "e1" 0 5)
                  (fixture.backend
                     (fixture.script [(false, Some "index closed"%string)] [] [] []) ∅))).
  vm_compute. discriminate.
Defined.

Lemma create_then_archive_witness :
  outcome (createNode 0 (fixture.node "n1" 0 5) fixture.fresh) = Some true /\
  exists err,
    trace (snd (updateTimes (INode (fixture.node "n1" 1 7))
                  (finalState fixture.fresh
                     (createNode 0 (fixture.node "n1" 0 5) fixture.fresh)))) =
    trace (finalState fixture.fresh
             (createNode 0 (fixture.node "n1" 0 5) fixture.fresh)) ++
    [CallBulkUpdateWithPartialDoc "node" "n1-0"
       (<["ArchivedAt"%string := VInt64 7]> ∅) err].
Proof.
  destruct (create_then_archive 0 (fixture.node "n1" 0 5) (fixture.node "n1" 1 7)
              fixture.fresh) as (Hok & _ & _ & err & Htrace).
  - vm_compute. reflexivity.
  - reflexivity.
  - split; [exact Hok|]. exists err. exact Htrace.
Defined.

Lemma deleted_elements_cannot_be_updated_witness :
  outcome (MetadataUpdated 0 (INode (fixture.node "n1" 1 7))
             (snd (NodeDeleted (fixture.node "n1" 0 5) fixture.tracking)))
  = Some false.
Proof.
  apply (proj1 (deleted_elements_cannot_be_updated 0 (fixture.node "n1" 0 5)
                  (fixture.edge "e1" 0 5) (INode (fixture.node "n1" 1 7))
                  (fixture.element "n1" 1 7) fixture.tracking eq_refl)).
  reflexivity.
Defined.

Lemma fresh_backend_cannot_update_witness :
  outcome (MetadataUpdated 0 (IEdge (fixture.edge "e1" 1 7))
             (fst (NewElasticSearchBackendFromClient (fun c => c)
                     (client fixture.tracking) 0 [])))
  = Some false.
Proof.
  apply (fresh_backend_cannot_update (fun c => c) (client fixture.tracking) 0 [] 0
           (IEdge (fixture.edge "e1" 1 7)) (fixture.element "e1" 1 7) eq_refl).
Defined.
